(** * hsv-picker: a shallow embedding of [contours.py], [color_finder.py]
    and [main.py], and the properties of their specification.

    The Python code is embedded as follows.
    - An [int] is a [Z]; a [numpy.uint8] channel is a [Z] in [0, 255]
      (predicate [uint8]); an image is a list of rows of three-channel pixels.
    - A Python exception is a value of [exn]; code that can raise returns a
      [result].
    - The OpenCV primitives the code calls on images ([cvtColor],
      [findContours], [contourArea], [drawContours], [rectangle], [imread])
      are the fields of the class [OpenCV]: every theorem holds for all of
      their behaviours.  [inRange] and [bitwise_or] are defined, following
      the OpenCV documentation.
    - A method of [ColorFinder] is a state transformer over the record of the
      object's attributes that also emits the console and window output. *)

From Stdlib Require Import ZArith List String Bool Lia.
From Stdlib Require Import QArith Lqa.
From Stdlib Require Import Orders Sorting.Mergesort Sorting.Sorted Sorting.Permutation.
Import ListNotations.

Open Scope Z_scope.

(** ** Python values and control *)

Module Py.

(** The message of a failed [assert]: which check failed, with the values
    its f-string interpolates. *)
Inductive assertion : Type :=
| HueRange (hsv_lower hsv_upper : Z * Z * Z)
| SaturationRange (hsv_lower hsv_upper : Z * Z * Z)
| ValueRange (hsv_lower hsv_upper : Z * Z * Z)
| SaturationOrder (hsv_lower hsv_upper : Z * Z * Z)
| ValueOrder (hsv_lower hsv_upper : Z * Z * Z)
| ColorChannel (color : list Z).

Inductive exn : Type :=
| AssertionError (a : assertion)
| TypeError
| IndexError
| AttributeError
| CvError.

Inductive result (A : Type) : Type :=
| Ok (a : A)
| Raise (e : exn).
Arguments Ok {A} a.
Arguments Raise {A} e.

Definition bind {A B : Type} (m : result A) (k : A -> result B) : result B :=
  match m with
  | Ok a => k a
  | Raise e => Raise e
  end.

(** [assert cond, msg] *)
Definition assert (cond : bool) (msg : assertion) : result unit :=
  if cond then Ok tt else Raise (AssertionError msg).

(** [t[0]], [t[1]], [t[2]] on a 3-tuple. *)
Definition ch0 (t : Z * Z * Z) : Z := fst (fst t).
Definition ch1 (t : Z * Z * Z) : Z := snd (fst t).
Definition ch2 (t : Z * Z * Z) : Z := snd t.

(** [a <= x <= b] *)
Definition between (a x b : Z) : bool := (a <=? x) && (x <=? b).

(** [l[i]] on a list: a negative index counts from the end and an index
    out of range raises [IndexError]. *)
Definition index {A : Type} (l : list A) (i : Z) : result A :=
  let n := Z.of_nat (List.length l) in
  let j := if i <? 0 then i + n else i in
  if (j <? 0) || (n <=? j) then Raise IndexError
  else match nth_error l (Z.to_nat j) with
       | Some a => Ok a
       | None => Raise IndexError
       end.

(** One bound of a slice [l[start:stop]] on a sequence of length [n]: a
    negative bound counts from the end, and both are clipped to [0, n]. *)
Definition slice_bound (n i : Z) : Z :=
  if i <? 0 then Z.max 0 (i + n) else Z.min i n.

(** [l[start:stop]] *)
Definition slice {A : Type} (l : list A) (start stop : Z) : list A :=
  let n := Z.of_nat (List.length l) in
  let s := slice_bound n start in
  let e := slice_bound n stop in
  firstn (Z.to_nat (e - s)) (skipn (Z.to_nat s) l).

(** [x < y] on the rationals. *)
Definition Qltb (x y : Q) : bool := negb (Qle_bool y x).

(** The loop of [max(iterable, key=f)]: the running maximum is replaced
    only by an item whose key is strictly greater. *)
Fixpoint max_loop {A : Type} (key : A -> Q) (maxitem : A) (maxval : Q)
         (items : list A) : A :=
  match items with
  | [] => maxitem
  | item :: rest =>
      let val := key item in
      if Qltb maxval val then max_loop key item val rest
      else max_loop key maxitem maxval rest
  end.

(** [max(items, key=key)] on a non-empty list given as head and tail. *)
Definition max_by {A : Type} (key : A -> Q) (first : A) (rest : list A) : A :=
  max_loop key first (key first) rest.

(** [list.sort()] on integers. *)
Module ZOrder <: TotalLeBool.
Definition t := Z.
Definition leb := Z.leb.
Theorem leb_total : forall a1 a2, leb a1 a2 = true \/ leb a2 a1 = true.
Proof.
  intros a1 a2. unfold leb.
  destruct (Z.leb_spec a1 a2); [left; reflexivity | right].
  apply Z.leb_le. lia.
Qed.
End ZOrder.

Module ZSort := Sort ZOrder.

Definition sort (l : list Z) : list Z := ZSort.sort l.

End Py.

Import Py.

Declare Scope result_scope.
Delimit Scope result_scope with result.
Notation "x <- m ;; k" := (Py.bind m (fun x => k))
  (at level 61, m at next level, right associativity) : result_scope.
Notation "m ;; k" := (Py.bind m (fun _ => k))
  (at level 61, right associativity) : result_scope.

(** ** Images and the OpenCV primitives *)

Module Cv.

Definition pixel : Type := Z * Z * Z.
Definition image : Type := list (list pixel).
Definition mask : Type := list (list Z).

Definition uint8 (z : Z) : Prop := 0 <= z <= 255.
Definition uint8_pixel (p : pixel) : Prop :=
  uint8 (ch0 p) /\ uint8 (ch1 p) /\ uint8 (ch2 p).
Definition uint8_image (img : image) : Prop :=
  Forall (Forall uint8_pixel) img.

Definition uint8b (z : Z) : bool := between 0 z 255.
Definition uint8_imageb (img : image) : bool :=
  forallb (forallb (fun p => uint8b (ch0 p) && uint8b (ch1 p) && uint8b (ch2 p))) img.

(** [cv.inRange(src, lowerb, upperb)]: 255 where every channel of the
    pixel lies between the bounds (both inclusive), 0 elsewhere. *)
Definition in_bounds (p lowerb upperb : Z * Z * Z) : bool :=
  between (ch0 lowerb) (ch0 p) (ch0 upperb)
  && between (ch1 lowerb) (ch1 p) (ch1 upperb)
  && between (ch2 lowerb) (ch2 p) (ch2 upperb).

Definition inRange (src : image) (lowerb upperb : Z * Z * Z) : mask :=
  map (map (fun p => if in_bounds p lowerb upperb then 255 else 0)) src.

(** [cv.bitwise_or(src1, src2)] on two arrays of one shape. *)
Fixpoint zip_with {A B C : Type} (f : A -> B -> C) (l1 : list A) (l2 : list B)
  : list C :=
  match l1, l2 with
  | a :: t1, b :: t2 => f a b :: zip_with f t1 t2
  | _, _ => []
  end.

Definition bitwise_or (src1 src2 : mask) : mask :=
  zip_with (zip_with Z.lor) src1 src2.

(** The element of a two-dimensional array at row [i], column [j]. *)
Definition at2 {A : Type} (a : list (list A)) (i j : nat) : option A :=
  match nth_error a i with
  | Some row => nth_error row j
  | None => None
  end.

Definition EVENT_MOUSEMOVE : Z := 0.
Definition EVENT_LBUTTONDOWN : Z := 1.
Definition EVENT_LBUTTONUP : Z := 4.
Definition RETR_LIST : Z := 1.
Definition CHAIN_APPROX_SIMPLE : Z := 2.

(** The primitives of OpenCV that the program uses as black boxes. *)
Class OpenCV : Type := {
  (** a contour, as [findContours] returns it *)
  contour : Type;
  (** [cv.cvtColor(src, cv.COLOR_BGR2HSV)]; it raises on an empty image *)
  cvtColor_BGR2HSV : image -> result image;
  (** [cv.findContours(mask, mode, method)[0]] *)
  findContours : mask -> Z -> Z -> list contour;
  (** [cv.contourArea(contour)] *)
  contourArea : contour -> Q;
  (** [cv.drawContours(image, contours, contourIdx, color, thickness)]: it
      draws in place, so it returns the image it leaves behind *)
  drawContours :
    image -> list (option contour) -> Z -> list Z -> Z -> image * result unit;
  (** [cv2.rectangle(img, pt1, pt2, color, thickness)], in place *)
  rectangle : image -> Z * Z -> Z * Z -> Z * Z * Z -> Z -> image;
  (** [cv2.imread(path)]: [None] when the file cannot be read *)
  imread : string -> option image
}.

End Cv.

Import Cv.

(** ** contours.py *)

Module contours.
Section WithOpenCV.
Context {cv : OpenCV}.
Local Open Scope result_scope.

(** The five assertions of [find_contours], in the order of the source.
    The third one reads index 0 of both bounds, as the source does. *)
Definition check_bounds (hsv_lower hsv_upper : Z * Z * Z) : result unit :=
  assert (between 0 (ch0 hsv_lower) 179 && between 0 (ch0 hsv_upper) 179)
         (HueRange hsv_lower hsv_upper) ;;
  assert (between 0 (ch1 hsv_lower) 255 && between 0 (ch1 hsv_upper) 255)
         (SaturationRange hsv_lower hsv_upper) ;;
  assert (between 0 (ch0 hsv_lower) 255 && between 0 (ch0 hsv_upper) 255)
         (ValueRange hsv_lower hsv_upper) ;;
  assert (ch1 hsv_lower <=? ch1 hsv_upper)
         (SaturationOrder hsv_lower hsv_upper) ;;
  assert (ch2 hsv_lower <=? ch2 hsv_upper)
         (ValueOrder hsv_lower hsv_upper).

(** The mask of [find_contours], from the HSV image. *)
Definition build_mask (hsv_image : image) (hsv_lower hsv_upper : Z * Z * Z)
  : mask :=
  if ch0 hsv_lower <=? ch0 hsv_upper then
    inRange hsv_image hsv_lower hsv_upper
  else
    let mask1 :=
      inRange hsv_image hsv_lower (255, ch1 hsv_upper, ch2 hsv_upper) in
    let mask2 :=
      inRange hsv_image (0, ch1 hsv_lower, ch2 hsv_lower) hsv_upper in
    bitwise_or mask1 mask2.

(** [find_contours] up to the mask it hands to [cv.findContours]. *)
Definition find_contours_mask (color_image : image)
           (hsv_lower hsv_upper : Z * Z * Z) : result mask :=
  check_bounds hsv_lower hsv_upper ;;
  hsv_image <- cvtColor_BGR2HSV color_image ;;
  Ok (build_mask hsv_image hsv_lower hsv_upper).

Definition find_contours (color_image : image)
           (hsv_lower hsv_upper : Z * Z * Z) : result (list contour) :=
  mask <- find_contours_mask color_image hsv_lower hsv_upper ;;
  Ok (findContours mask RETR_LIST CHAIN_APPROX_SIMPLE).

Definition get_largest_contour (contours : list contour) (min_area : Z)
  : option contour :=
  match contours with
  | [] => None
  | first :: rest =>
      let greatest_contour := max_by contourArea first rest in
      if Qltb (contourArea greatest_contour) (inject_Z min_area) then None
      else Some greatest_contour
  end.

(** The loop [for channel in color: assert 0 <= channel <= 255]. *)
Fixpoint check_color (color : list Z) (channels : list Z) : result unit :=
  match channels with
  | [] => Ok tt
  | channel :: rest =>
      assert (between 0 channel 255) (ColorChannel color) ;;
      check_color color rest
  end.

(** [draw_contour] returns the image buffer as the call leaves it, and
    whether the call returned or raised. *)
Definition draw_contour (color_image : image) (contour : option contour)
           (color : list Z) : image * result unit :=
  match check_color color color with
  | Raise e => (color_image, Raise e)
  | Ok _ => drawContours color_image [contour] 0 color 3
  end.

Definition default_color : list Z := [0; 255; 0].

End WithOpenCV.
End contours.

(** ** color_finder.py *)

Module color_finder.

(** The attributes of a [ColorFinder] object. *)
Record ColorFinder : Type := {
  image : Cv.image;
  cache : Cv.image;
  hsv_image : option Cv.image;
  hue_range : Z * Z;
  current_hsv_range : list (Z * Z * Z);
  mouse_x : Z;
  mouse_y : Z;
  drawing : bool
}.

Definition set_image (v : Cv.image) (self : ColorFinder) : ColorFinder :=
  {| image := v; cache := cache self; hsv_image := hsv_image self;
     hue_range := hue_range self; current_hsv_range := current_hsv_range self;
     mouse_x := mouse_x self; mouse_y := mouse_y self; drawing := drawing self |}.

Definition set_cache (v : Cv.image) (self : ColorFinder) : ColorFinder :=
  {| image := image self; cache := v; hsv_image := hsv_image self;
     hue_range := hue_range self; current_hsv_range := current_hsv_range self;
     mouse_x := mouse_x self; mouse_y := mouse_y self; drawing := drawing self |}.

Definition set_hsv_image (v : option Cv.image) (self : ColorFinder) : ColorFinder :=
  {| image := image self; cache := cache self; hsv_image := v;
     hue_range := hue_range self; current_hsv_range := current_hsv_range self;
     mouse_x := mouse_x self; mouse_y := mouse_y self; drawing := drawing self |}.

Definition set_current_hsv_range (v : list (Z * Z * Z)) (self : ColorFinder)
  : ColorFinder :=
  {| image := image self; cache := cache self; hsv_image := hsv_image self;
     hue_range := hue_range self; current_hsv_range := v;
     mouse_x := mouse_x self; mouse_y := mouse_y self; drawing := drawing self |}.

Definition set_mouse (x y : Z) (self : ColorFinder) : ColorFinder :=
  {| image := image self; cache := cache self; hsv_image := hsv_image self;
     hue_range := hue_range self; current_hsv_range := current_hsv_range self;
     mouse_x := x; mouse_y := y; drawing := drawing self |}.

Definition set_drawing (v : bool) (self : ColorFinder) : ColorFinder :=
  {| image := image self; cache := cache self; hsv_image := hsv_image self;
     hue_range := hue_range self; current_hsv_range := current_hsv_range self;
     mouse_x := mouse_x self; mouse_y := mouse_y self; drawing := v |}.

(** What a method shows: a window update, a console line, and the entry
    into a method of the object (kept in the trace so that a theorem can
    say that a method was not called). *)
Inductive output : Type :=
| Imshow (winname : string) (img : Cv.image)
| Print (line : string)
| PrintRange (hsv_range : list (Z * Z * Z))
| Enter (method : string).

(** A method: it reads and updates [self], emits output, and returns or
    raises.  After a raise the attributes stay as the method left them. *)
Definition Meth (A : Type) : Type :=
  ColorFinder -> result A * ColorFinder * list output.

Definition ret {A : Type} (a : A) : Meth A := fun self => (Ok a, self, []).

Definition raise {A : Type} (e : exn) : Meth A := fun self => (Raise e, self, []).

Definition mbind {A B : Type} (m : Meth A) (k : A -> Meth B) : Meth B :=
  fun self =>
    match m self with
    | (Ok a, self1, out1) =>
        match k a self1 with
        | (r, self2, out2) => (r, self2, out1 ++ out2)
        end
    | (Raise e, self1, out1) => (Raise e, self1, out1)
    end.

Definition get {A : Type} (field : ColorFinder -> A) : Meth A :=
  fun self => (Ok (field self), self, []).

Definition modify (f : ColorFinder -> ColorFinder) : Meth unit :=
  fun self => (Ok tt, f self, []).

Definition tell (out : list output) : Meth unit :=
  fun self => (Ok tt, self, out).

Definition lift {A : Type} (r : result A) : Meth A :=
  fun self => (r, self, []).

Declare Scope meth_scope.
Delimit Scope meth_scope with meth.
Notation "x <- m ;; k" := (mbind m (fun x => k))
  (at level 61, m at next level, right associativity) : meth_scope.
Notation "m ;; k" := (mbind m (fun _ => k))
  (at level 61, right associativity) : meth_scope.

(** [a[r0:r1, c0:c1]] on a two-dimensional array. *)
Definition slice2 {A : Type} (a : list (list A)) (r0 r1 c0 c1 : Z)
  : list (list A) :=
  map (fun row => slice row c0 c1) (slice a r0 r1).

(** The crop of [crop_image] on button release, at the press point
    [(mouse_x, mouse_y)] and the release point [(x, y)]. *)
Definition crop (img : Cv.image) (mouse_x mouse_y x y : Z) : Cv.image :=
  if y <? mouse_y then
    slice2 img (y + 3) (mouse_y - 3) (x + 3) (mouse_x - 3)
  else
    slice2 img (mouse_y + 3) (y - 3) (mouse_x + 3) (x - 3).

(** One step of the two nested loops of [get_hsv_range]. *)
Definition scan_pixel (hue_range : Z * Z) (acc : list Z * list Z * list Z)
           (row : pixel) : list Z * list Z * list Z :=
  let '(output_h, output_s, output_v) := acc in
  if (ch0 row >=? fst hue_range) && (ch0 row <=? snd hue_range) then
    (output_h ++ [ch0 row], output_s ++ [ch1 row], output_v ++ [ch2 row])
  else acc.

Definition scan (hue_range : Z * Z) (hsv_image : Cv.image)
  : list Z * list Z * list Z :=
  fold_left (fun acc col => fold_left (scan_pixel hue_range) col acc)
            hsv_image ([], [], []).

Definition no_data_message : string := "Invalid expected hsv range. Try again".

Section WithOpenCV.
Context {cv : OpenCV}.
Local Open Scope meth_scope.

(** [__init__(self, path, hue_range)]; [None.copy()] raises when the file
    cannot be read. *)
Definition init (path : string) (hue_range : Z * Z) : result ColorFinder :=
  match imread path with
  | None => Raise AttributeError
  | Some img =>
      Ok {| image := img; cache := img; hsv_image := None;
            hue_range := hue_range; current_hsv_range := [];
            mouse_x := 0; mouse_y := 0; drawing := false |}
  end.

Definition crop_image (event x y : Z) : Meth unit :=
  if event =? EVENT_LBUTTONDOWN then
    modify (set_drawing true) ;;
    modify (set_mouse x y)
  else if event =? EVENT_MOUSEMOVE then
    is_drawing <- get drawing ;;
    if is_drawing : bool then
      c <- get cache ;; mx <- get mouse_x ;; my <- get mouse_y ;;
      modify (set_cache (rectangle c (mx, my) (x, y) (0, 255, 0) 2))
    else ret tt
  else if event =? EVENT_LBUTTONUP then
    modify (set_drawing false) ;;
    img <- get image ;; mx <- get mouse_x ;; my <- get mouse_y ;;
    modify (set_image (rectangle img (mx, my) (x, y) (0, 255, 255) 2)) ;;
    img <- get image ;;
    modify (set_image (crop img mx my x y)) ;;
    img <- get image ;;
    hsv <- lift (cvtColor_BGR2HSV img) ;;
    modify (set_hsv_image (Some hsv))
  else ret tt.

Definition get_hsv_range : Meth (list (Z * Z * Z)) :=
  h <- get hsv_image ;;
  match h with
  | None => raise TypeError
  | Some hsv =>
      hr <- get hue_range ;;
      let '(output_h, output_s, output_v) := scan hr hsv in
      if Z.of_nat (List.length output_h) <? 1 then
        tell [Print no_data_message] ;;
        ret [(0, 0, 0); (0, 0, 0)]
      else
        let output_h := sort output_h in
        let output_s := sort output_s in
        let output_v := sort output_v in
        ret [(hd 0 output_h, hd 0 output_s, hd 0 output_v);
             (last output_h 0, last output_s 0, last output_v 0)]
  end.

(** A mouse event that the window delivers while [cv2.waitKey] runs: the
    callback's exception, if any, is reported by OpenCV and dropped. *)
Definition dispatch (ev : Z * Z * Z) : Meth unit :=
  fun self =>
    match crop_image (fst (fst ev)) (snd (fst ev)) (snd ev) self with
    | (_, self1, out1) => (Ok tt, self1, out1)
    end.

Fixpoint dispatch_all (pending : list (Z * Z * Z)) : Meth unit :=
  match pending with
  | [] => ret tt
  | ev :: rest => dispatch ev ;; dispatch_all rest
  end.

(** [cv2.waitKey(10)]: the mouse events [pending] are delivered, then the
    code [key] of the key pressed (or -1) is returned. *)
Definition waitKey (pending : list (Z * Z * Z)) (key : Z) : Meth Z :=
  dispatch_all pending ;; ret key.

Definition ord_q : Z := 113.

(** [draw_contour(self.cache, lg_contour)] *)
Definition draw_on_cache (lg_contour : option contour) : Meth unit :=
  fun self =>
    match contours.draw_contour (cache self) lg_contour contours.default_color with
    | (img, r) => (r, set_cache img self, [])
    end.

(** [refresh(self)].  The call of [cv2.imshow] is recorded in the output.
    OpenCV refuses an image without a row or a column there; this failure is
    not part of the embedding, so what is stated of a frame either holds for
    every way the frame can end, or is stated for a display copy that is not
    empty. *)
Definition refresh (pending : list (Z * Z * Z)) (key : Z) : Meth bool :=
  c <- get cache ;;
  tell [Imshow "Color Finder" c] ;;
  img <- get image ;;
  modify (set_cache img) ;;
  h <- get hsv_image ;;
  match h with
  | Some _ =>
      r <- get current_hsv_range ;;
      (if Z.of_nat (List.length r) <? 1 then
         tell [Enter "get_hsv_range"] ;;
         v <- get_hsv_range ;;
         modify (set_current_hsv_range v)
       else ret tt) ;;
      r <- get current_hsv_range ;;
      tell [PrintRange r] ;;
      c <- get cache ;;
      lo <- lift (index r 0) ;;
      hi <- lift (index r 1) ;;
      list_contours <- lift (contours.find_contours c lo hi) ;;
      let lg_contour := contours.get_largest_contour list_contours 30 in
      draw_on_cache lg_contour
  | None => ret tt
  end ;;
  k <- waitKey pending key ;;
  if k =? ord_q then ret false else ret true.

(** The loop [while running: running = color_finder.refresh()], on the
    frames that the operator supplies: each frame is the mouse events
    delivered during its [waitKey] and the key it returns. *)
Fixpoint run (frames : list (list (Z * Z * Z) * Z)) : Meth unit :=
  match frames with
  | [] => ret tt
  | (pending, key) :: rest =>
      running <- refresh pending key ;;
      if running : bool then run rest else ret tt
  end.

End WithOpenCV.
End color_finder.

(** ** main.py *)

Module main.

(** The values that [main.py] passes to the constructor. *)
#[local] Unset Elimination Schemes.
Inductive pyval : Type :=
| PyStr (s : string)
| PyInt (z : Z)
| PyBool (b : bool)
| PyTuple (items : list pyval)
| PyList (items : list pyval).
#[local] Set Elimination Schemes.

(** The parameters of [ColorFinder.__init__] after [self]; none has a
    default value. *)
Definition init_params : list string := ["path"; "hue_range"]%string.

(** A call with positional arguments only, to a function whose parameters
    have no default: the arguments are bound to the parameters in order, and
    any other number of arguments raises [TypeError]. *)
Definition call_positional (params : list string) (args : list pyval)
  : result (list (string * pyval)) :=
  if Nat.eqb (List.length args) (List.length params) then Ok (combine params args)
  else Raise TypeError.

Definition IMAGE_PATH : pyval := PyStr "resources/example.png".
Definition EXPECTED_HUE_RANGE : pyval := PyList [PyInt 40; PyInt 80].
Definition HSV_RANGE : pyval :=
  PyList [PyTuple [PyInt 40; PyInt 50; PyInt 150];
          PyTuple [PyInt 80; PyInt 255; PyInt 255]].
Definition MANUAL : bool := true.

(** The two [if] statements of [main.py] that construct the session, for a
    given value of the flag [MANUAL]: the result is the binding of the
    constructor's parameters. *)
Definition construct (manual : bool) : result (list (string * pyval)) :=
  (color_finder <-
     (if manual then
        call_positional init_params [IMAGE_PATH; HSV_RANGE; PyBool true]
      else Ok []) ;;
   if negb manual then
     call_positional init_params [IMAGE_PATH; EXPECTED_HUE_RANGE; PyBool false]
   else Ok color_finder)%result.

End main.

(** ** A stand-in for OpenCV

    Simple executable versions of the primitives, to run the program on
    concrete pictures.  A picture is given in HSV directly: the conversion
    keeps the channels and only refuses an empty picture. *)

Module Sim.

Definition is_empty (img : Cv.image) : bool :=
  match img with
  | [] => true
  | row :: _ => match row with [] => true | _ :: _ => false end
  end.

Definition cvtColor (img : Cv.image) : result Cv.image :=
  if is_empty img then Raise CvError else Ok img.

(** The columns of a row that are set, and the rows of a mask that have a
    pixel set. *)
Fixpoint set_columns (row : list Z) (j : Z) : list Z :=
  match row with
  | [] => []
  | v :: rest => if v =? 0 then set_columns rest (j + 1)
                 else j :: set_columns rest (j + 1)
  end.

Fixpoint set_points (m : mask) (i : Z) : list (Z * Z) :=
  match m with
  | [] => []
  | row :: rest =>
      map (fun j => (j, i)) (set_columns row 0) ++ set_points rest (i + 1)
  end.

Definition min_list (d : Z) (l : list Z) : Z := fold_left Z.min l d.
Definition max_list (d : Z) (l : list Z) : Z := fold_left Z.max l d.

(** One contour, when a pixel is set: the box through the outermost pixels
    set.  As with [cv.findContours], the corners are pixel positions, so a
    block of [w] by [h] pixels gives a contour of area [(w - 1) * (h - 1)]. *)
Definition findContours (m : mask) (mode method : Z) : list (list (Z * Z)) :=
  match set_points m 0 with
  | [] => []
  | (x, y) :: rest =>
      let xs := map fst rest in
      let ys := map snd rest in
      let x0 := min_list x xs in let x1 := max_list x xs in
      let y0 := min_list y ys in let y1 := max_list y ys in
      [[(x0, y0); (x1, y0); (x1, y1); (x0, y1)]]
  end.

(** The area of a polygon by the shoelace formula. *)
Fixpoint shoelace (prev : Z * Z) (pts : list (Z * Z)) : Z :=
  match pts with
  | [] => 0
  | p :: rest => fst prev * snd p - snd prev * fst p + shoelace p rest
  end.

Definition contourArea (c : list (Z * Z)) : Q :=
  match c with
  | [] => 0%Q
  | _ :: _ => Qmake (Z.abs (shoelace (last c (0, 0)) c)) 2
  end.

Definition drawContours (img : Cv.image) (cs : list (option (list (Z * Z))))
           (idx : Z) (color : list Z) (thickness : Z) : Cv.image * result unit :=
  match cs with
  | [Some _] => (img, Ok tt)
  | _ => (img, Raise CvError)
  end.

Definition rectangle (img : Cv.image) (pt1 pt2 : Z * Z) (color : Z * Z * Z)
           (thickness : Z) : Cv.image := img.

(** A 24 by 24 picture: two rows of hue 100 at the top; below them the
    columns 0 to 11 have hue 120, low saturation and high value, and the
    columns 12 to 23 hue 125, high saturation and low value. *)
Definition picture_pixel (i j : Z) : pixel :=
  if i <? 2 then (100, 30, 40)
  else if j <? 12 then (120, 100, 200)
  else (125, 200, 100).

Definition picture : Cv.image :=
  map (fun i => map (fun j => picture_pixel (Z.of_nat i) (Z.of_nat j)) (seq 0 24))
      (seq 0 24).

(** One row with a pixel of hue 175, one of hue 5 and one of hue 90. *)
Definition stripes : Cv.image :=
  [[(175, 100, 100); (5, 100, 100); (90, 100, 100)]].

Definition imread (path : string) : option Cv.image :=
  if String.eqb path "" then None else Some picture.

#[export] Instance opencv : OpenCV := {|
  contour := list (Z * Z);
  cvtColor_BGR2HSV := cvtColor;
  Cv.findContours := findContours;
  Cv.contourArea := contourArea;
  Cv.drawContours := drawContours;
  Cv.rectangle := rectangle;
  Cv.imread := imread
|}.

(** A session whose crop is the whole picture and that holds no range
    yet, for a given hue interval. *)
Definition selected (hue_range : Z * Z) : color_finder.ColorFinder :=
  {| color_finder.image := picture;
     color_finder.cache := picture;
     color_finder.hsv_image := Some picture;
     color_finder.hue_range := hue_range;
     color_finder.current_hsv_range := [];
     color_finder.mouse_x := 0;
     color_finder.mouse_y := 0;
     color_finder.drawing := false |}.

(** The session as [ColorFinder(path, (110, 150))] constructs it. *)
Definition session : color_finder.ColorFinder :=
  {| color_finder.image := picture;
     color_finder.cache := picture;
     color_finder.hsv_image := None;
     color_finder.hue_range := (110, 150);
     color_finder.current_hsv_range := [];
     color_finder.mouse_x := 0;
     color_finder.mouse_y := 0;
     color_finder.drawing := false |}.

(** The square contour of side [n] with its corner at [(x, y)]. *)
Definition box (x y n : Z) : list (Z * Z) :=
  [(x, y); (x + n, y); (x + n, y + n); (x, y + n)].

(** A drag from the point [press] to the point [release]. *)
Definition drag (press release : Z * Z) : list (Z * Z * Z) :=
  [(EVENT_LBUTTONDOWN, fst press, snd press);
   (EVENT_LBUTTONUP, fst release, snd release)].

End Sim.

(** ** The predicates of the specification *)

Module Props.
Import color_finder.

(** The pixel test of the wrap-around case, as the claim words it. *)
Definition wraps_in (p hsv_lower hsv_upper : Z * Z * Z) : Prop :=
  (ch0 p >= ch0 hsv_lower \/ ch0 p <= ch0 hsv_upper)
  /\ ch1 hsv_lower <= ch1 p <= ch1 hsv_upper
  /\ ch2 hsv_lower <= ch2 p <= ch2 hsv_upper.

(** Where [max] stops: the item returned splits the list into the items
    before it, all of a strictly smaller key, and the items after it, none
    of a greater key. *)
Definition first_maximal {A : Type} (key : A -> Q) (g : A) (l : list A) : Prop :=
  exists before after : list A,
    l = before ++ g :: after
    /\ (forall c, In c before -> (key c < key g)%Q)
    /\ (forall c, In c after -> (key c <= key g)%Q).

(** The test of the scan on a pixel. *)
Definition qualifies (hr : Z * Z) (p : pixel) : bool :=
  (ch0 p >=? fst hr) && (ch0 p <=? snd hr).

Definition is_min (m : Z) (l : list Z) : Prop :=
  In m l /\ forall x, In x l -> m <= x.

Definition is_max (m : Z) (l : list Z) : Prop :=
  In m l /\ forall x, In x l -> x <= m.

(** [m] is the least (greatest) value of the channel [f] over the pixels of
    the image whose hue lies in the interval [hr]. *)
Definition channel_min (f : pixel -> Z) (hr : Z * Z) (img : Cv.image) (m : Z)
  : Prop :=
  (exists p, In p (List.concat img) /\ fst hr <= ch0 p <= snd hr /\ f p = m)
  /\ (forall p, In p (List.concat img) -> fst hr <= ch0 p <= snd hr -> m <= f p).

Definition channel_max (f : pixel -> Z) (hr : Z * Z) (img : Cv.image) (m : Z)
  : Prop :=
  (exists p, In p (List.concat img) /\ fst hr <= ch0 p <= snd hr /\ f p = m)
  /\ (forall p, In p (List.concat img) -> fst hr <= ch0 p <= snd hr -> f p <= m).

(** The output of a step does not show an entry into [get_hsv_range]. *)
Definition quiet (out : list output) : Prop :=
  ~ In (Enter "get_hsv_range") out.

(** The method [m], run on [self], leaves [current_hsv_range] as it is and
    does not enter [get_hsv_range]. *)
Definition keeps {A : Type} (m : Meth A) (self : ColorFinder) : Prop :=
  forall r self' out,
    m self = (r, self', out) ->
    current_hsv_range self' = current_hsv_range self /\ quiet out.

Section WithOpenCV.
Context {cv : OpenCV}.

(** The statement on a new selection: after a frame in which the operator
    drags a new box, the next frame enters [get_hsv_range] and stores the
    range of the new crop. *)
Definition selection_recomputes (self : ColorFinder) (press release : Z * Z)
  : Prop :=
  forall running1 self1 out1 running2 self2 out2,
    refresh (Sim.drag press release) (-1) self = (Ok running1, self1, out1) ->
    refresh [] (-1) self1 = (Ok running2, self2, out2) ->
    In (Enter "get_hsv_range") out2
    /\ fst (fst (get_hsv_range self1)) = Ok (current_hsv_range self2).

End WithOpenCV.
End Props.

(** ** Counting on the output of a session *)

Module Counts.
Import color_finder.

Definition is_enter (o : output) : bool :=
  match o with
  | Enter method => String.eqb method "get_hsv_range"
  | _ => false
  end.

Definition is_no_data (o : output) : bool :=
  match o with
  | Print line => String.eqb line no_data_message
  | _ => false
  end.

(** How many times the output shows an entry into [get_hsv_range], and
    how many times the no-data message. *)
Definition enters (out : list output) : nat :=
  List.length (filter is_enter out).

Definition no_data_prints (out : list output) : nat :=
  List.length (filter is_no_data out).

(** One estimate is still to come while [current_hsv_range] is empty. *)
Definition budget (self : ColorFinder) : nat :=
  match current_hsv_range self with
  | [] => 1
  | _ :: _ => 0
  end.

(** The method [m], run on [self], enters [get_hsv_range] only against
    the budget, and prints the no-data message only after an entry. *)
Definition pays {A : Type} (m : Meth A) (self : ColorFinder) : Prop :=
  forall r self' out,
    m self = (r, self', out) ->
    (enters out + budget self' <= budget self)%nat
    /\ (no_data_prints out <= enters out)%nat.


(** An image that [cv2.imshow] accepts: it has a row and a column. *)
Definition displayable (img : Cv.image) : Prop :=
  exists p row rest, img = (p :: row) :: rest.

(** The method [m] returns only values that satisfy [P]. *)
Definition returns {A : Type} (m : Meth A) (P : A -> Prop) : Prop :=
  forall self a self' out, m self = (Ok a, self', out) -> P a.

End Counts.

(** * Properties *)

(** ** Lists, slices and sorting *)

Module PyFacts.

Lemma between_true (a x b : Z) : between a x b = true <-> a <= x <= b.
Proof.
  unfold between. rewrite andb_true_iff, !Z.leb_le. tauto.
Qed.

Lemma between_false (a x b : Z) : between a x b = false <-> x < a \/ b < x.
Proof.
  unfold between. rewrite andb_false_iff, !Z.leb_gt. tauto.
Qed.

Lemma assert_ok (cond : bool) (msg : assertion) :
  assert cond msg = Ok tt <-> cond = true.
Proof.
  unfold assert. destruct cond; split; intros H; try reflexivity; discriminate.
Qed.

Lemma zip_with_map {A B C D : Type} (f : B -> C -> D) (g : A -> B) (h : A -> C)
      (l : list A) :
  zip_with f (map g l) (map h l) = map (fun a => f (g a) (h a)) l.
Proof.
  induction l as [|a l IH]; simpl; [reflexivity | now rewrite IH].
Qed.

Lemma at2_map {A B : Type} (f : A -> B) (a : list (list A)) (i j : nat) :
  at2 (map (map f) a) i j = option_map f (at2 a i j).
Proof.
  unfold at2. rewrite nth_error_map.
  destruct (nth_error a i) as [row|]; simpl; [apply nth_error_map | reflexivity].
Qed.

Lemma at2_map_Some {A B : Type} (f : A -> B) (a : list (list A)) (i j : nat) (x : A) :
  at2 a i j = Some x -> at2 (map (map f) a) i j = Some (f x).
Proof.
  intros H. rewrite at2_map, H. reflexivity.
Qed.

Lemma at2_map_None {A B : Type} (f : A -> B) (a : list (list A)) (i j : nat) :
  at2 a i j = None -> at2 (map (map f) a) i j = None.
Proof.
  intros H. rewrite at2_map, H. reflexivity.
Qed.

Lemma at2_Forall {A : Type} (P : A -> Prop) (a : list (list A)) (i j : nat) (x : A) :
  Forall (Forall P) a -> at2 a i j = Some x -> P x.
Proof.
  unfold at2. intros Ha Hx.
  destruct (nth_error a i) as [row|] eqn:Hrow; [|discriminate].
  apply nth_error_In in Hrow, Hx.
  rewrite Forall_forall in Ha. specialize (Ha row Hrow).
  rewrite Forall_forall in Ha. now apply Ha.
Qed.

End PyFacts.

(** ** contours.py: the mask, the checks, the largest contour *)

Module contours_facts.
Import PyFacts Props contours.
Section WithOpenCV.
Context {cv : OpenCV}.

Lemma in_bounds_true (p lowerb upperb : Z * Z * Z) :
  in_bounds p lowerb upperb = true <->
  ch0 lowerb <= ch0 p <= ch0 upperb
  /\ ch1 lowerb <= ch1 p <= ch1 upperb
  /\ ch2 lowerb <= ch2 p <= ch2 upperb.
Proof.
  unfold in_bounds. rewrite !andb_true_iff, !between_true. tauto.
Qed.

Lemma wrap_pixel (p hsv_lower hsv_upper : Z * Z * Z) :
  uint8_pixel p ->
  let m := Z.lor
    (if in_bounds p hsv_lower (255, ch1 hsv_upper, ch2 hsv_upper) then 255 else 0)
    (if in_bounds p (0, ch1 hsv_lower, ch2 hsv_lower) hsv_upper then 255 else 0) in
  (m = 255 <-> wraps_in p hsv_lower hsv_upper) /\ (m = 0 \/ m = 255).
Proof.
  intros (H0 & H1 & H2). unfold uint8 in *. unfold wraps_in.
  destruct (in_bounds p hsv_lower _) eqn:Ea;
    destruct (in_bounds p _ hsv_upper) eqn:Eb; cbn zeta;
    try (apply in_bounds_true in Ea; unfold ch0, ch1, ch2 in Ea; simpl in Ea);
    try (apply in_bounds_true in Eb; unfold ch0, ch1, ch2 in Eb; simpl in Eb);
    change (Z.lor 255 255) with 255; change (Z.lor 255 0) with 255;
    change (Z.lor 0 255) with 255; change (Z.lor 0 0) with 0;
    unfold ch0, ch1, ch2 in *.
  - split; [|now right]. split; [intros _|reflexivity]. lia.
  - split; [|now right]. split; [intros _|reflexivity]. lia.
  - split; [|now right]. split; [intros _|reflexivity]. lia.
  - split; [|now left]. split; [discriminate|]. intros Hw. exfalso.
    assert (Ha : ~ (fst (fst hsv_lower) <= fst (fst p) <= 255
                    /\ snd (fst hsv_lower) <= snd (fst p) <= snd (fst hsv_upper)
                    /\ snd hsv_lower <= snd p <= snd hsv_upper)).
    { intros Hc. apply (proj2 (in_bounds_true p hsv_lower (255, snd (fst hsv_upper), snd hsv_upper))) in Hc.
      unfold ch1, ch2 in Ea. congruence. }
    assert (Hb : ~ (0 <= fst (fst p) <= fst (fst hsv_upper)
                    /\ snd (fst hsv_lower) <= snd (fst p) <= snd (fst hsv_upper)
                    /\ snd hsv_lower <= snd p <= snd hsv_upper)).
    { intros Hc. apply (proj2 (in_bounds_true p (0, snd (fst hsv_lower), snd hsv_lower) hsv_upper)) in Hc.
      unfold ch1, ch2 in Eb. congruence. }
    lia.
Qed.

Lemma check_bounds_ok (hsv_lower hsv_upper : Z * Z * Z) :
  check_bounds hsv_lower hsv_upper = Ok tt <->
  (0 <= ch0 hsv_lower <= 179 /\ 0 <= ch0 hsv_upper <= 179)
  /\ (0 <= ch1 hsv_lower <= 255 /\ 0 <= ch1 hsv_upper <= 255)
  /\ ch1 hsv_lower <= ch1 hsv_upper
  /\ ch2 hsv_lower <= ch2 hsv_upper.
Proof.
  unfold check_bounds, Py.bind, assert.
  destruct (between 0 (ch0 hsv_lower) 179) eqn:E1;
    destruct (between 0 (ch0 hsv_upper) 179) eqn:E2;
    destruct (between 0 (ch1 hsv_lower) 255) eqn:E3;
    destruct (between 0 (ch1 hsv_upper) 255) eqn:E4;
    destruct (between 0 (ch0 hsv_lower) 255) eqn:E5;
    destruct (between 0 (ch0 hsv_upper) 255) eqn:E6;
    destruct (ch1 hsv_lower <=? ch1 hsv_upper) eqn:E7;
    destruct (ch2 hsv_lower <=? ch2 hsv_upper) eqn:E8; simpl;
    rewrite ?between_true, ?between_false, ?Z.leb_le, ?Z.leb_gt in *;
    split; intros H; try discriminate; try reflexivity; try lia.
Qed.

(** C1. In the wrap-around case (lower hue above upper hue, bounds accepted
    by the checks, converted image of [uint8] pixels) [find_contours] builds
    a mask of the shape of the image that is 255 at a pixel exactly when
    (hue >= lower hue or hue <= upper hue) and saturation and value lie
    within their bounds, and 0 elsewhere; this mask is the bitwise or of the
    two single-range masks for the hue bands [lower hue, 255] and
    [0, upper hue]; and the contours returned are those of this mask. *)
Theorem find_contours_wrap_mask (color_image hsv_image : image)
        (hsv_lower hsv_upper : Z * Z * Z) :
  check_bounds hsv_lower hsv_upper = Ok tt ->
  ch0 hsv_lower > ch0 hsv_upper ->
  cvtColor_BGR2HSV color_image = Ok hsv_image ->
  uint8_image hsv_image ->
  exists m : mask,
    find_contours_mask color_image hsv_lower hsv_upper = Ok m
    /\ find_contours color_image hsv_lower hsv_upper
       = Ok (findContours m RETR_LIST CHAIN_APPROX_SIMPLE)
    /\ (forall i j p, at2 hsv_image i j = Some p ->
          exists v, at2 m i j = Some v
                    /\ (v = 255 <-> wraps_in p hsv_lower hsv_upper)
                    /\ (v = 0 \/ v = 255))
    /\ (forall i j, at2 hsv_image i j = None -> at2 m i j = None)
    /\ m = bitwise_or
             (inRange hsv_image (ch0 hsv_lower, ch1 hsv_lower, ch2 hsv_lower)
                      (255, ch1 hsv_upper, ch2 hsv_upper))
             (inRange hsv_image (0, ch1 hsv_lower, ch2 hsv_lower)
                      (ch0 hsv_upper, ch1 hsv_upper, ch2 hsv_upper)).
Proof.
  intros Hchk Hwrap Hcvt Hu8.
  assert (Hm : find_contours_mask color_image hsv_lower hsv_upper
               = Ok (build_mask hsv_image hsv_lower hsv_upper)).
  { unfold find_contours_mask. rewrite Hchk. simpl. rewrite Hcvt. reflexivity. }
  exists (build_mask hsv_image hsv_lower hsv_upper).
  split; [exact Hm|]. split.
  { unfold find_contours. rewrite Hm. reflexivity. }
  assert (Hb : build_mask hsv_image hsv_lower hsv_upper
               = bitwise_or
                   (inRange hsv_image hsv_lower (255, ch1 hsv_upper, ch2 hsv_upper))
                   (inRange hsv_image (0, ch1 hsv_lower, ch2 hsv_lower) hsv_upper)).
  { unfold build_mask. destruct (Z.leb_spec (ch0 hsv_lower) (ch0 hsv_upper)); [lia|reflexivity]. }
  rewrite Hb. clear Hb Hm.
  assert (Hmap : bitwise_or
                   (inRange hsv_image hsv_lower (255, ch1 hsv_upper, ch2 hsv_upper))
                   (inRange hsv_image (0, ch1 hsv_lower, ch2 hsv_lower) hsv_upper)
                 = map (map (fun p => Z.lor
                     (if in_bounds p hsv_lower (255, ch1 hsv_upper, ch2 hsv_upper)
                      then 255 else 0)
                     (if in_bounds p (0, ch1 hsv_lower, ch2 hsv_lower) hsv_upper
                      then 255 else 0))) hsv_image).
  { unfold bitwise_or, inRange. rewrite zip_with_map.
    apply map_ext. intros row. apply zip_with_map. }
  split; [|split].
  - intros i j p Hp. rewrite Hmap.
    eexists. split; [apply at2_map_Some; exact Hp|].
    apply wrap_pixel. exact (at2_Forall _ _ _ _ _ Hu8 Hp).
  - intros i j Hn. rewrite Hmap. apply at2_map_None. exact Hn.
  - destruct hsv_lower as [[lh ls] lv], hsv_upper as [[uh us] uv]. reflexivity.
Qed.

(** With bounds ordered in the three channels, [find_contours] passes the
    two ordering assertions and takes the single-range branch. *)
Lemma find_contours_mask_ordered (color_image : image)
      (hsv_lower hsv_upper : Z * Z * Z) :
  ch0 hsv_lower <= ch0 hsv_upper ->
  ch1 hsv_lower <= ch1 hsv_upper ->
  ch2 hsv_lower <= ch2 hsv_upper ->
  find_contours_mask color_image hsv_lower hsv_upper
  = (assert (between 0 (ch0 hsv_lower) 179 && between 0 (ch0 hsv_upper) 179)
            (HueRange hsv_lower hsv_upper) ;;
     assert (between 0 (ch1 hsv_lower) 255 && between 0 (ch1 hsv_upper) 255)
            (SaturationRange hsv_lower hsv_upper) ;;
     hsv_image <- cvtColor_BGR2HSV color_image ;;
     Ok (inRange hsv_image hsv_lower hsv_upper))%result.
Proof.
  intros H0 H1 H2.
  unfold find_contours_mask, check_bounds, build_mask.
  apply Z.leb_le in H0, H1, H2. rewrite H0, H1, H2.
  unfold Py.bind, assert.
  destruct (between 0 (ch0 hsv_lower) 179) eqn:E1; [|reflexivity].
  destruct (between 0 (ch0 hsv_upper) 179) eqn:E2; [|reflexivity].
  apply between_true in E1, E2.
  assert (E5 : between 0 (ch0 hsv_lower) 255 = true) by (apply between_true; lia).
  assert (E6 : between 0 (ch0 hsv_upper) 255 = true) by (apply between_true; lia).
  rewrite E5, E6.
  destruct (between 0 (ch1 hsv_lower) 255 && between 0 (ch1 hsv_upper) 255);
    reflexivity.
Qed.

Lemma Qltb_true (x y : Q) : Qltb x y = true <-> (x < y)%Q.
Proof.
  unfold Qltb. rewrite negb_true_iff. split.
  - intros H. apply Qnot_le_lt. intros Hle.
    apply Qle_bool_iff in Hle. congruence.
  - intros H. destruct (Qle_bool y x) eqn:E; [|reflexivity].
    apply Qle_bool_iff in E. exfalso. exact (Qlt_not_le _ _ H E).
Qed.

Lemma Qltb_false (x y : Q) : Qltb x y = false <-> (y <= x)%Q.
Proof.
  unfold Qltb. rewrite negb_false_iff. apply Qle_bool_iff.
Qed.

Lemma first_maximal_bound {A : Type} (key : A -> Q) (g : A) (l : list A) :
  first_maximal key g l -> forall c, In c l -> (key c <= key g)%Q.
Proof.
  intros (before & after & -> & Hb & Ha) c Hc.
  apply in_app_or in Hc. destruct Hc as [Hc | [<- | Hc]].
  - apply Qlt_le_weak. now apply Hb.
  - apply Qle_refl.
  - now apply Ha.
Qed.

Lemma max_by_first_maximal {A : Type} (key : A -> Q) (rest : list A) :
  forall first : A, first_maximal key (max_by key first rest) (first :: rest).
Proof.
  unfold max_by.
  induction rest as [|item rest IH]; intros first; simpl.
  - exists [], []. repeat split; intros c [].
  - destruct (Qltb (key first) (key item)) eqn:E.
    + apply Qltb_true in E.
      pose proof (first_maximal_bound key _ _ (IH item) item (or_introl eq_refl)) as Hle.
      destruct (IH item) as (before & after & Heq & Hb & Ha).
      remember (max_loop key item (key item) rest) as g eqn:Hg.
      exists (first :: before), after. repeat split.
      * simpl. now rewrite Heq.
      * intros c [<- | Hc]; [|now apply Hb].
        eapply Qlt_le_trans; eassumption.
      * exact Ha.
    + apply Qltb_false in E.
      destruct (IH first) as (before & after & Heq & Hb & Ha).
      remember (max_loop key first (key first) rest) as g eqn:Hg.
      destruct before as [|b before]; simpl in Heq.
      * injection Heq as Hfirst Hrest. exists [], (item :: after).
        repeat split.
        -- simpl. now rewrite Hfirst, Hrest.
        -- intros c [].
        -- intros c [<- | Hc]; [now rewrite <- Hfirst | now apply Ha].
      * injection Heq as Hfirst Hrest. subst b.
        exists (first :: item :: before), after.
        repeat split; [simpl; now rewrite Hrest | | exact Ha].
        intros c [<- | [<- | Hc]].
        -- apply Hb. now left.
        -- eapply Qle_lt_trans; [exact E|]. apply Hb. now left.
        -- apply Hb. now right.
Qed.

(** C3. [get_largest_contour] returns [None] on the empty list; [None] when
    every contour of a non-empty list (hence the one of maximum area) has an
    area strictly below [min_area]; and otherwise the contour of maximum
    area that comes first in the list: no contour before it is as large and
    no contour after it is larger. *)
Theorem get_largest_contour_spec (contours : list contour) (min_area : Z) :
  (contours = [] -> get_largest_contour contours min_area = None)
  /\ (contours <> [] ->
      (forall c, In c contours -> (contourArea c < inject_Z min_area)%Q) ->
      get_largest_contour contours min_area = None)
  /\ ((exists c, In c contours /\ (inject_Z min_area <= contourArea c)%Q) ->
      exists g, get_largest_contour contours min_area = Some g
                /\ first_maximal contourArea g contours).
Proof.
  split; [|split].
  - intros ->. reflexivity.
  - intros Hne Hall. destruct contours as [|first rest]; [reflexivity|].
    simpl. pose proof (max_by_first_maximal contourArea rest first) as Hmax.
    assert (Hin : In (max_by contourArea first rest) (first :: rest)).
    { destruct Hmax as (before & after & -> & _). apply in_or_app. right. now left. }
    apply Hall in Hin. apply Qltb_true in Hin. now rewrite Hin.
  - intros (c & Hc & Hge). destruct contours as [|first rest]; [destruct Hc|].
    pose proof (max_by_first_maximal contourArea rest first) as Hmax.
    exists (max_by contourArea first rest). split; [|exact Hmax].
    simpl. pose proof (first_maximal_bound _ _ _ Hmax c Hc) as Hle.
    assert (E : Qltb (contourArea (max_by contourArea first rest)) (inject_Z min_area) = false).
    { apply Qltb_false. eapply Qle_trans; eassumption. }
    now rewrite E.
Qed.

(** The third assertion of [find_contours] never fails: it repeats the
    test of the hue channel under the bound 255. *)
Lemma check_bounds_never_value_range (hsv_lower hsv_upper a b : Z * Z * Z) :
  check_bounds hsv_lower hsv_upper <> Raise (AssertionError (ValueRange a b)).
Proof.
  unfold check_bounds, Py.bind, assert.
  destruct (between 0 (ch0 hsv_lower) 179) eqn:E1;
    destruct (between 0 (ch0 hsv_upper) 179) eqn:E2; simpl; try discriminate.
  destruct (between 0 (ch1 hsv_lower) 255 && between 0 (ch1 hsv_upper) 255);
    try discriminate.
  apply between_true in E1, E2.
  assert (E5 : between 0 (ch0 hsv_lower) 255 = true) by (apply between_true; lia).
  assert (E6 : between 0 (ch0 hsv_upper) 255 = true) by (apply between_true; lia).
  rewrite E5, E6. simpl.
  destruct (ch1 hsv_lower <=? ch1 hsv_upper); try discriminate.
  destruct (ch2 hsv_lower <=? ch2 hsv_upper); discriminate.
Qed.

(** What [find_contours] does reject, before it converts the image: a hue
    outside [0, 179], a saturation outside [0, 255], a lower saturation or
    value above the upper one. *)
Lemma find_contours_rejects (color_image : image) (hsv_lower hsv_upper : Z * Z * Z) :
  ~ (0 <= ch0 hsv_lower <= 179 /\ 0 <= ch0 hsv_upper <= 179)
  \/ ~ (0 <= ch1 hsv_lower <= 255 /\ 0 <= ch1 hsv_upper <= 255)
  \/ ch1 hsv_lower > ch1 hsv_upper
  \/ ch2 hsv_lower > ch2 hsv_upper ->
  exists a, find_contours color_image hsv_lower hsv_upper = Raise (AssertionError a).
Proof.
  intros Hbad. unfold find_contours, find_contours_mask.
  destruct (check_bounds hsv_lower hsv_upper) as [[]|e] eqn:E.
  - apply check_bounds_ok in E. lia.
  - simpl. revert E. unfold check_bounds, Py.bind, assert.
    repeat match goal with
           | |- context [if ?b then _ else _] => destruct b; simpl
           end; intros E; inversion E; eexists; reflexivity.
Qed.

(** C4, at a value bound outside [0, 255]: with the bounds (0,0,0) and
    (179,255,300) [find_contours] raises no assertion error; it converts
    the image and returns the contours of the single-range mask. *)
Theorem find_contours_value_range_unchecked (color_image : image) :
  check_bounds (0, 0, 0) (179, 255, 300) = Ok tt
  /\ find_contours color_image (0, 0, 0) (179, 255, 300)
     = (hsv_image <- cvtColor_BGR2HSV color_image ;;
        Ok (findContours (inRange hsv_image (0, 0, 0) (179, 255, 300))
                         RETR_LIST CHAIN_APPROX_SIMPLE))%result.
Proof.
  split; [reflexivity|].
  unfold find_contours, find_contours_mask. simpl.
  destruct (cvtColor_BGR2HSV color_image); reflexivity.
Qed.

Lemma check_color_rejects (color channels : list Z) :
  Exists (fun channel => channel < 0 \/ 255 < channel) channels ->
  check_color color channels = Raise (AssertionError (ColorChannel color)).
Proof.
  induction channels as [|channel rest IH]; intros H; [inversion H|].
  simpl. unfold assert.
  destruct (between 0 channel 255) eqn:E; [|reflexivity].
  simpl. apply IH. inversion H as [? ? Hbad | ? ? Hrest]; subst; [|exact Hrest].
  apply between_true in E. lia.
Qed.

(** C5. With a color that has a channel outside [0, 255], [draw_contour]
    raises the assertion error on the color and leaves the image as it was,
    whatever [cv.drawContours] would do. *)
Theorem draw_contour_rejects_color (color_image : image) (c : option contour)
        (color : list Z) :
  Exists (fun channel => channel < 0 \/ 255 < channel) color ->
  draw_contour color_image c color
  = (color_image, Raise (AssertionError (ColorChannel color))).
Proof.
  intros H. unfold draw_contour.
  rewrite (check_color_rejects color color H). reflexivity.
Qed.

End WithOpenCV.

(** A run of C1 on the stand-in: bounds (170,50,50) and (10,255,255) on a
    row with hues 175, 5 and 90. *)
Lemma find_contours_wrap_mask_witness :
  exists m : mask,
    @find_contours_mask Sim.opencv Sim.stripes (170, 50, 50) (10, 255, 255) = Ok m
    /\ at2 m 0 0 = Some 255 /\ at2 m 0 1 = Some 255 /\ at2 m 0 2 = Some 0.
Proof.
  destruct (@find_contours_wrap_mask Sim.opencv Sim.stripes Sim.stripes
              (170, 50, 50) (10, 255, 255))
    as (m & Hm & _ & _ & _ & Hor).
  - reflexivity.
  - reflexivity.
  - reflexivity.
  - repeat constructor; unfold uint8, ch0, ch1, ch2; simpl; lia.
  - exists m. split; [exact Hm|]. rewrite Hor. repeat split; reflexivity.
Defined.

(** A run of C3 on the stand-in: squares of area 36, 49, 49 and 4. *)
Lemma get_largest_contour_spec_witness :
  exists g,
    @contours.get_largest_contour Sim.opencv
      [Sim.box 0 0 6; Sim.box 0 0 7; Sim.box 9 9 7; Sim.box 0 0 2] 30 = Some g
    /\ first_maximal Sim.contourArea g
         [Sim.box 0 0 6; Sim.box 0 0 7; Sim.box 9 9 7; Sim.box 0 0 2].
Proof.
  apply (proj2 (proj2 (@get_largest_contour_spec Sim.opencv
           [Sim.box 0 0 6; Sim.box 0 0 7; Sim.box 9 9 7; Sim.box 0 0 2] 30))).
  exists (Sim.box 0 0 7). split.
  - right. left. reflexivity.
  - vm_compute. discriminate.
Defined.

(** A run of C5 on the stand-in: the color (0, 256, 0). *)
Lemma draw_contour_rejects_color_witness :
  @contours.draw_contour Sim.opencv Sim.picture (Some (Sim.box 0 0 7)) [0; 256; 0]
  = (Sim.picture, Raise (AssertionError (ColorChannel [0; 256; 0]))).
Proof.
  apply (@draw_contour_rejects_color Sim.opencv).
  apply Exists_cons_tl, Exists_cons_hd. right. lia.
Defined.

End contours_facts.

(** ** color_finder.py: the range estimator *)

Module estimator_facts.
Import PyFacts Props color_finder.

Lemma qualifies_true (hr : Z * Z) (p : pixel) :
  qualifies hr p = true <-> fst hr <= ch0 p <= snd hr.
Proof.
  unfold qualifies. rewrite andb_true_iff, Z.geb_le, Z.leb_le. tauto.
Qed.

Lemma scan_row (hr : Z * Z) (row : list pixel) :
  forall oh os ov : list Z,
    fold_left (scan_pixel hr) row (oh, os, ov)
    = (oh ++ map ch0 (filter (qualifies hr) row),
       os ++ map ch1 (filter (qualifies hr) row),
       ov ++ map ch2 (filter (qualifies hr) row)).
Proof.
  induction row as [|p row IH]; intros oh os ov; simpl.
  - now rewrite !app_nil_r.
  - fold (qualifies hr p). destruct (qualifies hr p); simpl.
    + rewrite IH, <- !app_assoc. reflexivity.
    + apply IH.
Qed.

Lemma scan_rows (hr : Z * Z) (img : Cv.image) :
  forall oh os ov : list Z,
    fold_left (fun acc col => fold_left (scan_pixel hr) col acc) img (oh, os, ov)
    = (oh ++ map ch0 (filter (qualifies hr) (List.concat img)),
       os ++ map ch1 (filter (qualifies hr) (List.concat img)),
       ov ++ map ch2 (filter (qualifies hr) (List.concat img))).
Proof.
  induction img as [|row img IH]; intros oh os ov; simpl.
  - now rewrite !app_nil_r.
  - rewrite scan_row, IH, filter_app, !map_app, !app_assoc. reflexivity.
Qed.

(** The three lists of the scan hold the channels of the qualifying
    pixels, in the order of the image. *)
Lemma scan_filter (hr : Z * Z) (img : Cv.image) :
  scan hr img
  = (map ch0 (filter (qualifies hr) (List.concat img)),
     map ch1 (filter (qualifies hr) (List.concat img)),
     map ch2 (filter (qualifies hr) (List.concat img))).
Proof.
  unfold scan. apply scan_rows.
Qed.

Lemma leb_transitive : Transitive (fun x y : Z => is_true (x <=? y)).
Proof.
  intros x y z Hxy Hyz. unfold is_true in *.
  rewrite Z.leb_le in *. lia.
Qed.

Lemma sorted_hd_min (l : list Z) :
  StronglySorted (fun x y => is_true (x <=? y)) l -> l <> [] -> is_min (hd 0 l) l.
Proof.
  intros Hs Hne. destruct l as [|a l]; [congruence|]. simpl.
  split; [now left|]. intros x [<- | Hx]; [lia|].
  apply StronglySorted_inv in Hs. destruct Hs as [_ Hall].
  rewrite Forall_forall in Hall. apply Z.leb_le. now apply Hall.
Qed.

Lemma sorted_last_max (l : list Z) :
  StronglySorted (fun x y => is_true (x <=? y)) l -> l <> [] -> is_max (last l 0) l.
Proof.
  induction l as [|a l IH]; intros Hs Hne; [congruence|].
  apply StronglySorted_inv in Hs. destruct Hs as [Hs Hall].
  destruct l as [|b l].
  - simpl. split; [now left|]. intros x [<- | []]. lia.
  - destruct (IH Hs) as [Hin Hmax]; [discriminate|].
    change (last (a :: b :: l) 0) with (last (b :: l) 0).
    split; [now right|]. intros x [<- | Hx]; [|now apply Hmax].
    rewrite Forall_forall in Hall.
    assert (Hab : a <= b) by (apply Z.leb_le, Hall; now left).
    specialize (Hmax b (or_introl eq_refl)). lia.
Qed.

Lemma is_min_perm (m : Z) (l l' : list Z) :
  Permutation l l' -> is_min m l' -> is_min m l.
Proof.
  intros Hp [Hin Hle]. split.
  - eapply Permutation_in; [symmetry; exact Hp | exact Hin].
  - intros x Hx. apply Hle. eapply Permutation_in; eassumption.
Qed.

Lemma is_max_perm (m : Z) (l l' : list Z) :
  Permutation l l' -> is_max m l' -> is_max m l.
Proof.
  intros Hp [Hin Hle]. split.
  - eapply Permutation_in; [symmetry; exact Hp | exact Hin].
  - intros x Hx. apply Hle. eapply Permutation_in; eassumption.
Qed.

(** After [l.sort()], [l[0]] is the minimum and [l[-1]] the maximum. *)
Lemma sort_hd_min (l : list Z) : l <> [] -> is_min (hd 0 (sort l)) l.
Proof.
  intros Hne. apply (is_min_perm _ _ (sort l)); [apply ZSort.Permuted_sort|].
  apply sorted_hd_min; [apply ZSort.StronglySorted_sort, leb_transitive|].
  intros E. apply Hne. apply Permutation_nil.
  unfold sort in E. rewrite <- E. symmetry. apply ZSort.Permuted_sort.
Qed.

Lemma sort_last_max (l : list Z) : l <> [] -> is_max (last (sort l) 0) l.
Proof.
  intros Hne. apply (is_max_perm _ _ (sort l)); [apply ZSort.Permuted_sort|].
  apply sorted_last_max; [apply ZSort.StronglySorted_sort, leb_transitive|].
  intros E. apply Hne. apply Permutation_nil.
  unfold sort in E. rewrite <- E. symmetry. apply ZSort.Permuted_sort.
Qed.

Lemma is_min_channel (f : pixel -> Z) (hr : Z * Z) (img : Cv.image) (m : Z) :
  is_min m (map f (filter (qualifies hr) (List.concat img))) -> channel_min f hr img m.
Proof.
  intros [Hin Hle]. split.
  - apply in_map_iff in Hin. destruct Hin as (p & Hp & Hf).
    apply filter_In in Hf. destruct Hf as [Hf Hq].
    apply qualifies_true in Hq. now exists p.
  - intros p Hp Hq. apply Hle, in_map, filter_In.
    split; [exact Hp | now apply qualifies_true].
Qed.

Lemma is_max_channel (f : pixel -> Z) (hr : Z * Z) (img : Cv.image) (m : Z) :
  is_max m (map f (filter (qualifies hr) (List.concat img))) -> channel_max f hr img m.
Proof.
  intros [Hin Hle]. split.
  - apply in_map_iff in Hin. destruct Hin as (p & Hp & Hf).
    apply filter_In in Hf. destruct Hf as [Hf Hq].
    apply qualifies_true in Hq. now exists p.
  - intros p Hp Hq. apply Hle, in_map, filter_In.
    split; [exact Hp | now apply qualifies_true].
Qed.

(** [get_hsv_range] in closed form, on the list of the qualifying pixels. *)
Lemma get_hsv_range_eq (self : ColorFinder) (hsv : Cv.image) :
  hsv_image self = Some hsv ->
  get_hsv_range self
  = let q := filter (qualifies (hue_range self)) (List.concat hsv) in
    match q with
    | [] => (Ok [(0, 0, 0); (0, 0, 0)], self, [Print no_data_message])
    | _ :: _ =>
        (Ok [(hd 0 (sort (map ch0 q)), hd 0 (sort (map ch1 q)), hd 0 (sort (map ch2 q)));
             (last (sort (map ch0 q)) 0, last (sort (map ch1 q)) 0,
              last (sort (map ch2 q)) 0)],
         self, [])
    end.
Proof.
  intros Hh. unfold get_hsv_range, mbind, get. rewrite Hh. cbn zeta.
  rewrite scan_filter.
  destruct (filter (qualifies (hue_range self)) (List.concat hsv)) as [|p q] eqn:Eq.
  - reflexivity.
  - cbn iota.
    assert (E : (Z.of_nat (List.length (map ch0 (p :: q))) <? 1) = false).
    { apply Z.ltb_ge. simpl List.length. lia. }
    rewrite E. reflexivity.
Qed.

Lemma qualifying_nonempty (hr : Z * Z) (img : Cv.image) :
  (exists p, In p (List.concat img) /\ fst hr <= ch0 p <= snd hr) ->
  filter (qualifies hr) (List.concat img) <> [].
Proof.
  intros (p & Hin & Hq) E.
  assert (Hf : In p (filter (qualifies hr) (List.concat img))).
  { apply filter_In. split; [exact Hin | now apply qualifies_true]. }
  rewrite E in Hf. destruct Hf.
Qed.

(** C2. When a pixel of the HSV image has its hue in the interval,
    [get_hsv_range] returns (lower, upper), prints nothing and changes no
    attribute; each channel of lower is the least value, and each channel
    of upper the greatest value, that this channel takes on the pixels with
    a hue in the interval, channel by channel. *)
Theorem get_hsv_range_bounding_box (self : ColorFinder) (hsv : Cv.image) :
  hsv_image self = Some hsv ->
  (exists p, In p (List.concat hsv)
             /\ fst (hue_range self) <= ch0 p <= snd (hue_range self)) ->
  exists lower upper : Z * Z * Z,
    get_hsv_range self = (Ok [lower; upper], self, [])
    /\ channel_min ch0 (hue_range self) hsv (ch0 lower)
    /\ channel_min ch1 (hue_range self) hsv (ch1 lower)
    /\ channel_min ch2 (hue_range self) hsv (ch2 lower)
    /\ channel_max ch0 (hue_range self) hsv (ch0 upper)
    /\ channel_max ch1 (hue_range self) hsv (ch1 upper)
    /\ channel_max ch2 (hue_range self) hsv (ch2 upper).
Proof.
  intros Hh Hex. apply qualifying_nonempty in Hex.
  rewrite (get_hsv_range_eq self hsv Hh). cbn zeta.
  remember (filter (qualifies (hue_range self)) (List.concat hsv)) as q eqn:Eq.
  destruct q as [|p q]; [congruence|]. rewrite Eq.
  assert (Hne : forall f : pixel -> Z,
             map f (filter (qualifies (hue_range self)) (List.concat hsv)) <> []).
  { intros f E. apply map_eq_nil in E. congruence. }
  eexists _, _. split; [reflexivity|].
  unfold ch0 at 1, ch1 at 1, ch2 at 1. simpl fst. simpl snd.
  repeat split;
    first [ apply is_min_channel, sort_hd_min, Hne
          | apply is_max_channel, sort_last_max, Hne ].
Qed.

(** C6. When no pixel of the HSV image has its hue in the interval,
    [get_hsv_range] raises nothing: it prints the message and returns the
    all-zero range, and changes no attribute. *)
Theorem get_hsv_range_no_data (self : ColorFinder) (hsv : Cv.image) :
  hsv_image self = Some hsv ->
  (forall p, In p (List.concat hsv) ->
             ~ fst (hue_range self) <= ch0 p <= snd (hue_range self)) ->
  get_hsv_range self
  = (Ok [(0, 0, 0); (0, 0, 0)], self, [Print no_data_message]).
Proof.
  intros Hh Hnone. rewrite (get_hsv_range_eq self hsv Hh). cbn zeta.
  destruct (filter (qualifies (hue_range self)) (List.concat hsv)) as [|p q] eqn:Eq;
    [reflexivity|].
  assert (Hp : In p (filter (qualifies (hue_range self)) (List.concat hsv)))
    by (rewrite Eq; now left).
  apply filter_In in Hp. destruct Hp as [Hin Hq].
  apply qualifies_true in Hq. destruct (Hnone p Hin Hq).
Qed.

Lemma min_le_max (l : list Z) (a b : Z) : is_min a l -> is_max b l -> a <= b.
Proof.
  intros [Ha Hmin] [Hb Hmax]. now apply Hmin.
Qed.

Section WithOpenCV.
Context {cv : OpenCV}.

(** C10. When a pixel of the HSV image has its hue in the interval, the
    range (lower, upper) that [get_hsv_range] returns has lower <= upper in
    the three channels; so on every image [find_contours] passes its two
    ordering assertions with this range and builds the single-range mask:
    it can only fail in the range checks on hue and saturation or in the
    conversion of the image. *)
Theorem get_hsv_range_ordered (self : ColorFinder) (hsv : Cv.image) :
  hsv_image self = Some hsv ->
  (exists p, In p (List.concat hsv)
             /\ fst (hue_range self) <= ch0 p <= snd (hue_range self)) ->
  exists lower upper : Z * Z * Z,
    get_hsv_range self = (Ok [lower; upper], self, [])
    /\ ch0 lower <= ch0 upper /\ ch1 lower <= ch1 upper /\ ch2 lower <= ch2 upper
    /\ forall color_image : Cv.image,
        contours.find_contours_mask color_image lower upper
        = (assert (between 0 (ch0 lower) 179 && between 0 (ch0 upper) 179)
                  (HueRange lower upper) ;;
           assert (between 0 (ch1 lower) 255 && between 0 (ch1 upper) 255)
                  (SaturationRange lower upper) ;;
           hsv_image <- cvtColor_BGR2HSV color_image ;;
           Ok (inRange hsv_image lower upper))%result.
Proof.
  intros Hh Hex. pose proof (qualifying_nonempty _ _ Hex) as Hq.
  rewrite (get_hsv_range_eq self hsv Hh). cbn zeta.
  remember (filter (qualifies (hue_range self)) (List.concat hsv)) as q eqn:Eq.
  destruct q as [|p q]; [congruence|]. rewrite Eq.
  assert (Hne : forall f : pixel -> Z,
             map f (filter (qualifies (hue_range self)) (List.concat hsv)) <> []).
  { intros f E. apply map_eq_nil in E. congruence. }
  pose proof (min_le_max _ _ _ (sort_hd_min _ (Hne ch0)) (sort_last_max _ (Hne ch0))) as H0.
  pose proof (min_le_max _ _ _ (sort_hd_min _ (Hne ch1)) (sort_last_max _ (Hne ch1))) as H1.
  pose proof (min_le_max _ _ _ (sort_hd_min _ (Hne ch2)) (sort_last_max _ (Hne ch2))) as H2.
  eexists _, _. split; [reflexivity|].
  split; [exact H0|]. split; [exact H1|]. split; [exact H2|].
  intros color_image.
  apply contours_facts.find_contours_mask_ordered; assumption.
Qed.

End WithOpenCV.

(** A run of C2 on the stand-in picture with the hue interval [110, 150]:
    the corners returned are not pixels of the picture. *)
Lemma get_hsv_range_bounding_box_witness :
  exists lower upper : Z * Z * Z,
    get_hsv_range (Sim.selected (110, 150))
    = (Ok [lower; upper], Sim.selected (110, 150), [])
    /\ channel_min ch0 (110, 150) Sim.picture (ch0 lower)
    /\ channel_min ch1 (110, 150) Sim.picture (ch1 lower)
    /\ channel_min ch2 (110, 150) Sim.picture (ch2 lower)
    /\ channel_max ch0 (110, 150) Sim.picture (ch0 upper)
    /\ channel_max ch1 (110, 150) Sim.picture (ch1 upper)
    /\ channel_max ch2 (110, 150) Sim.picture (ch2 upper).
Proof.
  apply (get_hsv_range_bounding_box (Sim.selected (110, 150)) Sim.picture).
  - reflexivity.
  - exists (120, 100, 200). split.
    + apply (nth_error_In _ 48). reflexivity.
    + unfold ch0. simpl. lia.
Defined.

(** A run of C6 on the stand-in picture with the hue interval [10, 20]. *)
Lemma get_hsv_range_no_data_witness :
  get_hsv_range (Sim.selected (10, 20))
  = (Ok [(0, 0, 0); (0, 0, 0)], Sim.selected (10, 20), [Print no_data_message]).
Proof.
  apply (get_hsv_range_no_data (Sim.selected (10, 20)) Sim.picture).
  - reflexivity.
  - intros p Hin.
    assert (Hp : In p [(100, 30, 40); (120, 100, 200); (125, 200, 100)]).
    { revert p Hin. apply Forall_forall. vm_compute.
      repeat (constructor; [tauto|]). constructor. }
    simpl. destruct Hp as [<- | [<- | [<- | []]]]; unfold ch0; simpl; lia.
Defined.

(** A run of C10 on the stand-in picture with the hue interval [110, 150]. *)
Lemma get_hsv_range_ordered_witness :
  exists lower upper : Z * Z * Z,
    get_hsv_range (Sim.selected (110, 150))
    = (Ok [lower; upper], Sim.selected (110, 150), [])
    /\ ch0 lower <= ch0 upper /\ ch1 lower <= ch1 upper /\ ch2 lower <= ch2 upper.
Proof.
  destruct (@get_hsv_range_ordered Sim.opencv (Sim.selected (110, 150)) Sim.picture)
    as (lower & upper & H & H0 & H1 & H2 & _).
  - reflexivity.
  - exists (120, 100, 200). split.
    + apply (nth_error_In _ 48). reflexivity.
    + unfold ch0. simpl. lia.
  - exists lower, upper. repeat split; assumption.
Defined.

End estimator_facts.

(** ** color_finder.py: the crop and the frame loop *)

Module session_facts.
Import PyFacts Props color_finder.

(** The constructor on the stand-in, with the arguments of
    [color_finder.py]. *)
Example init_session :
  @init Sim.opencv "resources/purpleLine2.png" (110, 150) = Ok Sim.session.
Proof. reflexivity. Qed.

Lemma slice_reversed {A : Type} (l : list A) (start stop : Z) :
  0 <= stop <= start -> slice l start stop = [].
Proof.
  intros H. unfold slice, slice_bound.
  destruct (Z.ltb_spec start 0); [lia|].
  destruct (Z.ltb_spec stop 0); [lia|].
  replace (Z.to_nat (Z.min stop (Z.of_nat (List.length l))
                     - Z.min start (Z.of_nat (List.length l)))) with 0%nat by lia.
  reflexivity.
Qed.

(** A drag that ends left of and not above its start keeps no column: the
    crop tests the vertical direction only. *)
Lemma crop_mixed_drag_empty (img : Cv.image) (mouse_x mouse_y x y : Z) :
  3 <= x < mouse_x -> mouse_y <= y ->
  Forall (fun row => row = []) (crop img mouse_x mouse_y x y).
Proof.
  intros Hx Hy. unfold crop, slice2.
  destruct (Z.ltb_spec y mouse_y); [lia|].
  apply Forall_forall. intros row Hrow.
  apply in_map_iff in Hrow. destruct Hrow as (r & <- & _).
  apply slice_reversed. lia.
Qed.

(** A drag down and to the right, or up and to the left, crops the box
    between the two corners, three pixels in on each side. *)
Lemma crop_diagonal_drag (img : Cv.image) (mouse_x mouse_y x y : Z) :
  (mouse_x <= x /\ mouse_y <= y) \/ (x <= mouse_x /\ y < mouse_y) ->
  crop img mouse_x mouse_y x y
  = slice2 img (Z.min mouse_y y + 3) (Z.max mouse_y y - 3)
           (Z.min mouse_x x + 3) (Z.max mouse_x x - 3).
Proof.
  intros H. unfold crop.
  destruct (Z.ltb_spec y mouse_y).
  - replace (Z.min mouse_y y) with y by lia.
    replace (Z.max mouse_y y) with mouse_y by lia.
    replace (Z.min mouse_x x) with x by lia.
    replace (Z.max mouse_x x) with mouse_x by lia. reflexivity.
  - replace (Z.min mouse_y y) with mouse_y by lia.
    replace (Z.max mouse_y y) with y by lia.
    replace (Z.min mouse_x x) with mouse_x by lia.
    replace (Z.max mouse_x x) with x by lia. reflexivity.
Qed.

(** C7, at a drag from (15, 2) to (3, 14) on the 24 by 24 picture: the crop
    of [crop_image] has six rows and no column, where the box between the
    corners, three pixels in on each side, has six rows of six pixels. *)
Theorem crop_down_left_drag :
  crop Sim.picture 15 2 3 14 = [[]; []; []; []; []; []]
  /\ slice2 Sim.picture (Z.min 2 14 + 3) (Z.max 2 14 - 3)
            (Z.min 15 3 + 3) (Z.max 15 3 - 3)
     = repeat (repeat (120, 100, 200) 6) 6.
Proof.
  split; vm_compute; reflexivity.
Qed.

(** C9, at the entry point as written: with either value of [MANUAL] the
    construction passes three arguments to a constructor of two parameters
    and raises [TypeError]. *)
Theorem construct_raises (manual : bool) :
  main.construct manual = Raise TypeError.
Proof.
  destruct manual; reflexivity.
Qed.

Lemma quiet_nil : quiet [].
Proof. intros []. Qed.

Lemma quiet_app (o1 o2 : list output) : quiet o1 -> quiet o2 -> quiet (o1 ++ o2).
Proof.
  unfold quiet. intros H1 H2 H. apply in_app_or in H. tauto.
Qed.

Lemma keeps_ret {A : Type} (a : A) (self : ColorFinder) : keeps (ret a) self.
Proof.
  intros r s o E. inversion E; subst. split; [reflexivity | apply quiet_nil].
Qed.

Lemma keeps_lift {A : Type} (x : result A) (self : ColorFinder) : keeps (lift x) self.
Proof.
  intros r s o E. inversion E; subst. split; [reflexivity | apply quiet_nil].
Qed.

Lemma keeps_tell (out : list output) (self : ColorFinder) :
  quiet out -> keeps (tell out) self.
Proof.
  intros Hq r s o E. inversion E; subst. split; [reflexivity | exact Hq].
Qed.

Lemma keeps_modify (f : ColorFinder -> ColorFinder) (self : ColorFinder) :
  current_hsv_range (f self) = current_hsv_range self -> keeps (modify f) self.
Proof.
  intros Hf r s o E. inversion E; subst. split; [exact Hf | apply quiet_nil].
Qed.

Lemma keeps_bind {A B : Type} (m : Meth A) (k : A -> Meth B) (self : ColorFinder) :
  keeps m self ->
  (forall a self1 out1,
      m self = (Ok a, self1, out1) ->
      current_hsv_range self1 = current_hsv_range self ->
      keeps (k a) self1) ->
  keeps (mbind m k) self.
Proof.
  intros Hm Hk r s o. unfold mbind.
  destruct (m self) as [[[a|e] self1] out1] eqn:Em.
  - destruct (Hm _ _ _ Em) as [R1 Q1].
    specialize (Hk a self1 out1 eq_refl R1).
    destruct (k a self1) as [[r2 self2] out2] eqn:Ek.
    destruct (Hk _ _ _ Ek) as [R2 Q2].
    intros E. inversion E; subst.
    split; [congruence | now apply quiet_app].
  - destruct (Hm _ _ _ Em) as [R1 Q1].
    intros E. inversion E; subst. now split.
Qed.

Lemma keeps_get_bind {A B : Type} (field : ColorFinder -> A) (k : A -> Meth B)
      (self : ColorFinder) :
  keeps (k (field self)) self -> keeps (mbind (get field) k) self.
Proof.
  intros Hk. apply keeps_bind.
  - intros r s o E. inversion E; subst. split; [reflexivity | apply quiet_nil].
  - intros a s o E _. inversion E; subst. exact Hk.
Qed.

Section WithOpenCV.
Context {cv : OpenCV}.
Local Open Scope meth_scope.

Ltac keeps_step :=
  first
    [ apply keeps_ret
    | apply keeps_lift
    | apply keeps_modify; reflexivity
    | apply keeps_tell; intros [H | H]; [discriminate H | destruct H]
    | apply keeps_get_bind
    | apply keeps_bind; [| intros ? ? ? _ _] ].

Lemma crop_image_keeps (event x y : Z) (self : ColorFinder) :
  keeps (crop_image event x y) self.
Proof.
  unfold crop_image.
  destruct (event =? EVENT_LBUTTONDOWN); [repeat keeps_step|].
  destruct (event =? EVENT_MOUSEMOVE).
  { keeps_step. destruct (drawing self); repeat keeps_step. }
  destruct (event =? EVENT_LBUTTONUP); repeat keeps_step.
Qed.

Lemma dispatch_keeps (ev : Z * Z * Z) (self : ColorFinder) :
  keeps (dispatch ev) self.
Proof.
  intros r s o. unfold dispatch.
  destruct (crop_image (fst (fst ev)) (snd (fst ev)) (snd ev) self)
    as [[r1 s1] o1] eqn:E.
  intros H. inversion H; subst.
  exact (crop_image_keeps _ _ _ _ _ _ _ E).
Qed.

Lemma dispatch_all_keeps (pending : list (Z * Z * Z)) :
  forall self, keeps (dispatch_all pending) self.
Proof.
  induction pending as [|ev rest IH]; intros self; simpl.
  - apply keeps_ret.
  - apply keeps_bind; [apply dispatch_keeps | intros; apply IH].
Qed.

Lemma waitKey_keeps (pending : list (Z * Z * Z)) (key : Z) (self : ColorFinder) :
  keeps (waitKey pending key) self.
Proof.
  unfold waitKey. apply keeps_bind; [apply dispatch_all_keeps|].
  intros. apply keeps_ret.
Qed.

Lemma draw_on_cache_keeps (c : option contour) (self : ColorFinder) :
  keeps (draw_on_cache c) self.
Proof.
  intros r s o. unfold draw_on_cache.
  destruct (contours.draw_contour (cache self) c contours.default_color) as [img r1].
  intros H. inversion H; subst. split; [reflexivity | apply quiet_nil].
Qed.

(** A frame that starts with a range in [current_hsv_range] keeps it and
    does not enter [get_hsv_range], whatever the frame does otherwise. *)
Lemma refresh_keeps (pending : list (Z * Z * Z)) (key : Z) (self : ColorFinder) :
  current_hsv_range self <> [] -> keeps (refresh pending key) self.
Proof.
  intros Hne. unfold refresh.
  apply keeps_get_bind.
  apply keeps_bind; [keeps_step|]. intros _ s1 o1 _ R1.
  apply keeps_get_bind.
  apply keeps_bind; [keeps_step|]. intros _ s2 o2 _ R2.
  apply keeps_get_bind.
  assert (Hne2 : current_hsv_range s2 <> []) by congruence.
  apply keeps_bind.
  - destruct (hsv_image s2) as [hsv|]; [|apply keeps_ret].
    apply keeps_get_bind.
    destruct (current_hsv_range s2) as [|lo rest] eqn:Er; [congruence|].
    assert (E : (Z.of_nat (List.length (lo :: rest)) <? 1) = false).
    { apply Z.ltb_ge. simpl List.length. lia. }
    rewrite E.
    apply keeps_bind; [keeps_step|]. intros _ s3 o3 _ R3.
    apply keeps_get_bind.
    apply keeps_bind; [keeps_step|]. intros _ s4 o4 _ R4.
    apply keeps_get_bind.
    apply keeps_bind; [keeps_step|]. intros lower s5 o5 _ R5.
    apply keeps_bind; [keeps_step|]. intros upper s6 o6 _ R6.
    apply keeps_bind; [keeps_step|]. intros list_contours s7 o7 _ R7.
    apply draw_on_cache_keeps.
  - intros _ s3 o3 _ R3.
    apply keeps_bind; [apply waitKey_keeps|].
    intros k s4 o4 _ R4. destruct (k =? ord_q); apply keeps_ret.
Qed.

Lemma run_keeps (frames : list (list (Z * Z * Z) * Z)) :
  forall self, current_hsv_range self <> [] -> keeps (run frames) self.
Proof.
  induction frames as [|[pending key] rest IH]; intros self Hne; simpl.
  - apply keeps_ret.
  - apply keeps_bind; [now apply refresh_keeps|].
    intros running s1 o1 _ R1.
    destruct running; [|apply keeps_ret].
    apply IH. congruence.
Qed.

(** [get_hsv_range] returns a list of two tuples whenever it returns. *)
Lemma get_hsv_range_two (self s : ColorFinder) (v : list (Z * Z * Z))
      (o : list output) :
  get_hsv_range self = (Ok v, s, o) -> List.length v = 2%nat.
Proof.
  unfold get_hsv_range, mbind, get.
  destruct (hsv_image self) as [hsv|]; [|discriminate].
  cbn zeta. destruct (scan (hue_range self) hsv) as [[oh os] ov].
  destruct (Z.of_nat (List.length oh) <? 1); simpl;
    intros E; inversion E; reflexivity.
Qed.

(** C8, as the code has it.  Once [current_hsv_range] holds a range (the
    one that [get_hsv_range] returned in an earlier frame, or one put there
    by hand), every run of the frame loop, with any mouse events and
    selections in it, leaves that range in place and never enters
    [get_hsv_range]; and the range that [get_hsv_range] returns is never
    empty, so the first estimate is the one that stays. *)
Theorem range_cached (self : ColorFinder) (frames : list (list (Z * Z * Z) * Z)) :
  current_hsv_range self <> [] ->
  (forall r self' out,
      run frames self = (r, self', out) ->
      current_hsv_range self' = current_hsv_range self
      /\ ~ In (Enter "get_hsv_range") out)
  /\ (forall s s' v o, get_hsv_range s = (Ok v, s', o) -> v <> []).
Proof.
  intros Hne. split.
  - intros r self' out E. exact (run_keeps frames self Hne r self' out E).
  - intros s s' v o E Hv. apply get_hsv_range_two in E.
    rewrite Hv in E. discriminate.
Qed.

End WithOpenCV.

(** A run of C8 on the stand-in: a session that holds a range, a new
    selection, two more frames and the quit key. *)
Lemma range_cached_witness :
  exists r self' out,
    @run Sim.opencv
      [(Sim.drag (0, 0) (9, 16), -1); ([], -1); ([], 113)]
      (set_current_hsv_range [(120, 100, 100); (125, 200, 200)]
                             (Sim.selected (110, 150)))
    = (r, self', out)
    /\ current_hsv_range self' = [(120, 100, 100); (125, 200, 200)]
    /\ ~ In (Enter "get_hsv_range") out.
Proof.
  destruct (@run Sim.opencv
              [(Sim.drag (0, 0) (9, 16), -1); ([], -1); ([], 113)]
              (set_current_hsv_range [(120, 100, 100); (125, 200, 200)]
                                     (Sim.selected (110, 150))))
    as [[r self'] out] eqn:E.
  exists r, self', out. split; [reflexivity|].
  refine (proj1 (@range_cached Sim.opencv
           (set_current_hsv_range [(120, 100, 100); (125, 200, 200)]
                                  (Sim.selected (110, 150)))
           [(Sim.drag (0, 0) (9, 16), -1); ([], -1); ([], 113)] _) r self' out E).
  simpl. discriminate.
Defined.

(** C8 as stated fails.  On the stand-in, the operator drags a box over the
    whole picture and a frame estimates the range (120,100,100) to
    (125,200,200) on the crop of 17 by 17 pixels.  The operator then drags
    the box (0,0) to (12,16), whose crop of 10 rows and 6 columns lies in
    the left part and has the estimate (120,100,200) to (120,100,200).  The
    frame of that drag and the next frame both return (the contour of the
    crop has area 9 * 5 = 45, above 30), the next frame does not enter
    [get_hsv_range], and the range is still the first one. *)
Lemma selection_keeps_first_range :
  exists self1 out1 self2 out2 self3 out3,
    @run Sim.opencv [(Sim.drag (0, 0) (23, 23), -1); ([], -1)] Sim.session
    = (Ok tt, self1, out1)
    /\ current_hsv_range self1 = [(120, 100, 100); (125, 200, 200)]
    /\ @refresh Sim.opencv (Sim.drag (0, 0) (12, 16)) (-1) self1
       = (Ok true, self2, out2)
    /\ @refresh Sim.opencv [] (-1) self2 = (Ok true, self3, out3)
    /\ fst (fst (get_hsv_range self2)) = Ok [(120, 100, 200); (120, 100, 200)]
    /\ current_hsv_range self3 = [(120, 100, 100); (125, 200, 200)]
    /\ ~ In (Enter "get_hsv_range") out3
    /\ ~ @selection_recomputes Sim.opencv self1 (0, 0) (12, 16).
Proof.
  eexists _, _, _, _, _, _.
  split; [vm_compute; reflexivity|].
  split; [reflexivity|].
  split; [vm_compute; reflexivity|].
  split; [vm_compute; reflexivity|].
  split; [vm_compute; reflexivity|].
  split; [reflexivity|].
  split; [vm_compute; intuition discriminate|].
  intros H.
  edestruct H as [Hin _]; [vm_compute; reflexivity | vm_compute; reflexivity |].
  vm_compute in Hin. intuition discriminate.
Qed.

End session_facts.

(** ** contours.py: further properties *)

Module contours_more.
Import PyFacts Props contours contours_facts.
Section WithOpenCV.
Context {cv : OpenCV}.

Lemma in_range_pixel (p lowerb upperb : Z * Z * Z) :
  let v := if in_bounds p lowerb upperb then 255 else 0 in
  (v = 255 <->
   ch0 lowerb <= ch0 p <= ch0 upperb
   /\ ch1 lowerb <= ch1 p <= ch1 upperb
   /\ ch2 lowerb <= ch2 p <= ch2 upperb)
  /\ (v = 0 \/ v = 255).
Proof.
  cbn zeta. destruct (in_bounds p lowerb upperb) eqn:E.
  - split; [|now right]. split; [intros _; now apply in_bounds_true | reflexivity].
  - split; [|now left]. split; [discriminate|].
    intros H. apply in_bounds_true in H. congruence.
Qed.

(** When the lower hue is at most the upper hue and the bounds pass the
    checks, the mask of [find_contours] is 255 at a pixel exactly when each
    of its three channels lies between the bounds, both inclusive, and 0 at
    every other pixel; the contours returned are those of this mask. *)
Theorem find_contours_single_range_mask (color_image hsv_image : image)
        (hsv_lower hsv_upper : Z * Z * Z) :
  check_bounds hsv_lower hsv_upper = Ok tt ->
  ch0 hsv_lower <= ch0 hsv_upper ->
  cvtColor_BGR2HSV color_image = Ok hsv_image ->
  exists m : mask,
    find_contours_mask color_image hsv_lower hsv_upper = Ok m
    /\ find_contours color_image hsv_lower hsv_upper
       = Ok (findContours m RETR_LIST CHAIN_APPROX_SIMPLE)
    /\ (forall i j p, at2 hsv_image i j = Some p ->
          exists v, at2 m i j = Some v
                    /\ (v = 255 <->
                        ch0 hsv_lower <= ch0 p <= ch0 hsv_upper
                        /\ ch1 hsv_lower <= ch1 p <= ch1 hsv_upper
                        /\ ch2 hsv_lower <= ch2 p <= ch2 hsv_upper)
                    /\ (v = 0 \/ v = 255))
    /\ (forall i j, at2 hsv_image i j = None -> at2 m i j = None).
Proof.
  intros Hchk Hle Hcvt.
  assert (Hb : build_mask hsv_image hsv_lower hsv_upper
               = inRange hsv_image hsv_lower hsv_upper).
  { unfold build_mask. apply Z.leb_le in Hle. now rewrite Hle. }
  assert (Hm : find_contours_mask color_image hsv_lower hsv_upper
               = Ok (inRange hsv_image hsv_lower hsv_upper)).
  { unfold find_contours_mask. rewrite Hchk. simpl. rewrite Hcvt. simpl.
    now rewrite Hb. }
  exists (inRange hsv_image hsv_lower hsv_upper).
  split; [exact Hm|]. split; [unfold find_contours; now rewrite Hm|].
  split.
  - intros i j p Hp. eexists. split.
    + unfold inRange. apply at2_map_Some. exact Hp.
    + apply in_range_pixel.
  - intros i j Hn. unfold inRange. now apply at2_map_None.
Qed.

(** [find_contours] accepts the bounds exactly when both hues are in
    [0, 179], both saturations in [0, 255], and the lower saturation and
    value are at most the upper ones.  Accepted bounds lead to the
    conversion of the image; refused bounds raise one assertion error that
    is the same for every image. *)
Theorem find_contours_precondition (hsv_lower hsv_upper : Z * Z * Z) :
  ((0 <= ch0 hsv_lower <= 179 /\ 0 <= ch0 hsv_upper <= 179)
   /\ (0 <= ch1 hsv_lower <= 255 /\ 0 <= ch1 hsv_upper <= 255)
   /\ ch1 hsv_lower <= ch1 hsv_upper
   /\ ch2 hsv_lower <= ch2 hsv_upper ->
   forall color_image,
     find_contours color_image hsv_lower hsv_upper
     = (hsv_image <- cvtColor_BGR2HSV color_image ;;
        Ok (findContours (build_mask hsv_image hsv_lower hsv_upper)
                         RETR_LIST CHAIN_APPROX_SIMPLE))%result)
  /\ (~ ((0 <= ch0 hsv_lower <= 179 /\ 0 <= ch0 hsv_upper <= 179)
         /\ (0 <= ch1 hsv_lower <= 255 /\ 0 <= ch1 hsv_upper <= 255)
         /\ ch1 hsv_lower <= ch1 hsv_upper
         /\ ch2 hsv_lower <= ch2 hsv_upper) ->
      exists a, forall color_image,
        find_contours color_image hsv_lower hsv_upper
        = Raise (AssertionError a)).
Proof.
  split.
  - intros H color_image. apply check_bounds_ok in H.
    unfold find_contours, find_contours_mask. rewrite H. simpl.
    destruct (cvtColor_BGR2HSV color_image); reflexivity.
  - intros H. unfold find_contours, find_contours_mask.
    destruct (check_bounds hsv_lower hsv_upper) as [[]|e] eqn:E.
    + apply check_bounds_ok in E. contradiction.
    + revert E. unfold check_bounds, Py.bind, assert.
      repeat match goal with
             | |- context [if ?b then _ else _] => destruct b; simpl
             end; intros E; inversion E; eexists; intros; reflexivity.
Qed.

(** Whatever the bounds, the mask built from an HSV image has the shape of
    that image and holds no value other than 0 and 255. *)
Theorem build_mask_shape (hsv_image : image) (hsv_lower hsv_upper : Z * Z * Z)
        (i j : nat) :
  match at2 hsv_image i j with
  | Some _ =>
      at2 (build_mask hsv_image hsv_lower hsv_upper) i j = Some 0
      \/ at2 (build_mask hsv_image hsv_lower hsv_upper) i j = Some 255
  | None => at2 (build_mask hsv_image hsv_lower hsv_upper) i j = None
  end.
Proof.
  unfold build_mask.
  destruct (ch0 hsv_lower <=? ch0 hsv_upper).
  - unfold inRange.
    destruct (at2 hsv_image i j) as [p|] eqn:Ep.
    + rewrite (at2_map_Some _ _ _ _ _ Ep).
      destruct (in_bounds p hsv_lower hsv_upper); [now right | now left].
    + now apply at2_map_None.
  - unfold bitwise_or, inRange. rewrite zip_with_map.
    rewrite (map_ext _ _ (fun row => zip_with_map Z.lor _ _ row)).
    destruct (at2 hsv_image i j) as [p|] eqn:Ep.
    + rewrite (at2_map_Some _ _ _ _ _ Ep).
      destruct (in_bounds p hsv_lower _); destruct (in_bounds p _ hsv_upper);
        simpl; tauto.
    + now apply at2_map_None.
Qed.

(** What [get_largest_contour] returns: a contour that it returns is in
    the list, has an area of at least [min_area] (an area equal to
    [min_area] is accepted) and no contour of the list has a greater area;
    when it returns [None], every contour of the list has an area strictly
    below [min_area]. *)
Theorem get_largest_contour_sound (contours : list contour) (min_area : Z) :
  match get_largest_contour contours min_area with
  | Some g =>
      In g contours
      /\ (inject_Z min_area <= contourArea g)%Q
      /\ (forall c, In c contours -> (contourArea c <= contourArea g)%Q)
  | None =>
      forall c, In c contours -> (contourArea c < inject_Z min_area)%Q
  end.
Proof.
  destruct contours as [|first rest]; [intros c []|].
  unfold get_largest_contour.
  pose proof (max_by_first_maximal contourArea rest first) as Hmax.
  pose proof (first_maximal_bound _ _ _ Hmax) as Hle.
  destruct (Qltb (contourArea (max_by contourArea first rest)) (inject_Z min_area))
    eqn:E.
  - apply Qltb_true in E. intros c Hc.
    eapply Qle_lt_trans; [apply Hle; exact Hc | exact E].
  - apply Qltb_false in E. split; [|split; [exact E | exact Hle]].
    destruct Hmax as (before & after & Heq & _).
    rewrite Heq. apply in_or_app. right. now left.
Qed.

Lemma check_color_accepts (color channels : list Z) :
  Forall (fun channel => 0 <= channel <= 255) channels ->
  check_color color channels = Ok tt.
Proof.
  induction 1 as [|channel rest Hc _ IH]; simpl; [reflexivity|].
  apply between_true in Hc. rewrite Hc. simpl. exact IH.
Qed.

(** With every channel of the color in [0, 255] (the empty color
    included), [draw_contour] is the call of [cv.drawContours] on the image
    with the one contour, index 0, the color and thickness 3. *)
Theorem draw_contour_accepts_color (color_image : image) (c : option contour)
        (color : list Z) :
  Forall (fun channel => 0 <= channel <= 255) color ->
  draw_contour color_image c color = drawContours color_image [c] 0 color 3.
Proof.
  intros H. unfold draw_contour. now rewrite (check_color_accepts color color H).
Qed.

End WithOpenCV.

Lemma find_contours_single_range_mask_witness :
  exists m : mask,
    @find_contours_mask Sim.opencv Sim.stripes (80, 50, 50) (100, 255, 255) = Ok m
    /\ at2 m 0 0 = Some 0 /\ at2 m 0 1 = Some 0 /\ at2 m 0 2 = Some 255.
Proof.
  destruct (@find_contours_single_range_mask Sim.opencv Sim.stripes Sim.stripes
              (80, 50, 50) (100, 255, 255))
    as (m & Hm & _ & _ & _).
  - reflexivity.
  - unfold ch0. simpl. lia.
  - reflexivity.
  - exists m. split; [exact Hm|].
    vm_compute in Hm. injection Hm as <-.
    repeat split; reflexivity.
Defined.

Lemma find_contours_precondition_witness :
  (forall color_image,
     @find_contours Sim.opencv color_image (90, 50, 50) (110, 255, 255)
     = (hsv_image <- Sim.cvtColor color_image ;;
        Ok (Sim.findContours (build_mask hsv_image (90, 50, 50) (110, 255, 255))
                             RETR_LIST CHAIN_APPROX_SIMPLE))%result)
  /\ exists a, forall color_image,
       @find_contours Sim.opencv color_image (90, 50, 50) (180, 255, 255)
       = Raise (AssertionError a).
Proof.
  split.
  - apply (proj1 (@find_contours_precondition Sim.opencv (90, 50, 50) (110, 255, 255))).
    unfold ch0, ch1, ch2. simpl. lia.
  - apply (proj2 (@find_contours_precondition Sim.opencv (90, 50, 50) (180, 255, 255))).
    unfold ch0, ch1, ch2. simpl. lia.
Defined.

Lemma draw_contour_accepts_color_witness :
  @draw_contour Sim.opencv Sim.picture (Some (Sim.box 0 0 7)) default_color
  = (Sim.picture, Ok tt).
Proof.
  rewrite (@draw_contour_accepts_color Sim.opencv).
  - reflexivity.
  - repeat constructor; lia.
Defined.

End contours_more.

(** ** color_finder.py: the estimate and the mask *)

Module estimator_more.
Import PyFacts Props color_finder estimator_facts.

Lemma ch0_triple (a b c : Z) : ch0 (a, b, c) = a.
Proof. reflexivity. Qed.

Lemma ch1_triple (a b c : Z) : ch1 (a, b, c) = b.
Proof. reflexivity. Qed.

Lemma ch2_triple (a b c : Z) : ch2 (a, b, c) = c.
Proof. reflexivity. Qed.

Lemma at2_In {A : Type} (a : list (list A)) (i j : nat) (x : A) :
  at2 a i j = Some x -> In x (List.concat a).
Proof.
  unfold at2. intros H.
  destruct (nth_error a i) as [row|] eqn:Hrow; [|discriminate].
  apply in_concat. exists row. split; eapply nth_error_In; eassumption.
Qed.

Lemma Forall2_In {A : Type} (P : A -> Prop) (a : list (list A)) (x : A) :
  Forall (Forall P) a -> In x (List.concat a) -> P x.
Proof.
  intros Ha Hx. apply in_concat in Hx. destruct Hx as (row & Hrow & Hx).
  rewrite Forall_forall in Ha. specialize (Ha row Hrow).
  rewrite Forall_forall in Ha. now apply Ha.
Qed.

(** The range estimated on a selection, in the six extreme values of the
    channels over the qualifying pixels [q]. *)
Lemma estimate_extremes (self : ColorFinder) (hsv : Cv.image) :
  hsv_image self = Some hsv ->
  filter (qualifies (hue_range self)) (List.concat hsv) <> [] ->
  let q := filter (qualifies (hue_range self)) (List.concat hsv) in
  get_hsv_range self
  = (Ok [(hd 0 (sort (map ch0 q)), hd 0 (sort (map ch1 q)), hd 0 (sort (map ch2 q)));
         (last (sort (map ch0 q)) 0, last (sort (map ch1 q)) 0,
          last (sort (map ch2 q)) 0)],
     self, [])
  /\ (forall f : pixel -> Z, is_min (hd 0 (sort (map f q))) (map f q))
  /\ (forall f : pixel -> Z, is_max (last (sort (map f q)) 0) (map f q)).
Proof.
  intros Hh Hq. cbn zeta. split; [|split].
  - rewrite (get_hsv_range_eq self hsv Hh). cbn zeta.
    destruct (filter (qualifies (hue_range self)) (List.concat hsv)); [congruence|].
    reflexivity.
  - intros f. apply sort_hd_min. intros E. apply map_eq_nil in E. congruence.
  - intros f. apply sort_last_max. intros E. apply map_eq_nil in E. congruence.
Qed.

(** The estimate covers the selection.  When a pixel of the HSV image has
    its hue in the interval, the hue bounds of the range that
    [get_hsv_range] returns lie inside the interval, and the single-range
    mask of the HSV image under this range is 255 at every pixel whose hue
    lies in the interval. *)
Theorem estimate_covers_selection (self : ColorFinder) (hsv : Cv.image) :
  hsv_image self = Some hsv ->
  (exists p, In p (List.concat hsv)
             /\ fst (hue_range self) <= ch0 p <= snd (hue_range self)) ->
  exists lower upper : Z * Z * Z,
    get_hsv_range self = (Ok [lower; upper], self, [])
    /\ fst (hue_range self) <= ch0 lower
    /\ ch0 upper <= snd (hue_range self)
    /\ forall i j p,
        at2 hsv i j = Some p ->
        fst (hue_range self) <= ch0 p <= snd (hue_range self) ->
        at2 (inRange hsv lower upper) i j = Some 255.
Proof.
  intros Hh Hex. apply qualifying_nonempty in Hex.
  destruct (estimate_extremes self hsv Hh Hex) as (Hget & Hmin & Hmax).
  cbn zeta in *.
  set (q := filter (qualifies (hue_range self)) (List.concat hsv)) in *.
  eexists _, _. split; [exact Hget|].
  assert (Hin : forall (f : pixel -> Z) (m : Z),
             In m (map f q) -> exists p, In p (List.concat hsv)
               /\ fst (hue_range self) <= ch0 p <= snd (hue_range self) /\ f p = m).
  { intros f m Hm. apply in_map_iff in Hm. destruct Hm as (p & Hp & Hf).
    apply filter_In in Hf. destruct Hf as [Hf Hq].
    apply qualifies_true in Hq. now exists p. }
  split; [|split].
  - destruct (Hin ch0 _ (proj1 (Hmin ch0))) as (p & _ & Hp & E).
    rewrite ch0_triple. unfold pixel in *. lia.
  - destruct (Hin ch0 _ (proj1 (Hmax ch0))) as (p & _ & Hp & E).
    rewrite ch0_triple. unfold pixel in *. lia.
  - intros i j p Hp Hhue.
    unfold inRange. rewrite (at2_map_Some _ _ _ _ _ Hp).
    assert (Hq : In p q).
    { apply filter_In. split; [eapply at2_In; exact Hp | now apply qualifies_true]. }
    assert (Hb : in_bounds p
                   (hd 0 (sort (map ch0 q)), hd 0 (sort (map ch1 q)),
                    hd 0 (sort (map ch2 q)))
                   (last (sort (map ch0 q)) 0, last (sort (map ch1 q)) 0,
                    last (sort (map ch2 q)) 0) = true).
    { apply contours_facts.in_bounds_true.
      rewrite !ch0_triple, !ch1_triple, !ch2_triple.
      pose proof (proj2 (Hmin ch0) _ (in_map ch0 _ _ Hq)).
      pose proof (proj2 (Hmin ch1) _ (in_map ch1 _ _ Hq)).
      pose proof (proj2 (Hmin ch2) _ (in_map ch2 _ _ Hq)).
      pose proof (proj2 (Hmax ch0) _ (in_map ch0 _ _ Hq)).
      pose proof (proj2 (Hmax ch1) _ (in_map ch1 _ _ Hq)).
      pose proof (proj2 (Hmax ch2) _ (in_map ch2 _ _ Hq)).
      unfold pixel in *. lia. }
    now rewrite Hb.
Qed.

Section WithOpenCV.
Context {cv : OpenCV}.

(** The estimate is always accepted.  On an HSV image of [uint8] pixels
    and a hue interval that ends at 179 or below, the range that
    [get_hsv_range] returns (the all-zero range of the no-data case
    included) passes every check of [find_contours], which then converts
    the image and takes the contours of the single-range mask. *)
Theorem estimate_accepted (self : ColorFinder) (hsv : Cv.image) :
  hsv_image self = Some hsv ->
  uint8_image hsv ->
  snd (hue_range self) <= 179 ->
  exists lower upper : Z * Z * Z,
    fst (fst (get_hsv_range self)) = Ok [lower; upper]
    /\ contours.check_bounds lower upper = Ok tt
    /\ forall color_image : Cv.image,
        contours.find_contours color_image lower upper
        = (hsv_image <- cvtColor_BGR2HSV color_image ;;
           Ok (findContours (inRange hsv_image lower upper)
                            RETR_LIST CHAIN_APPROX_SIMPLE))%result.
Proof.
  intros Hh Hu8 Hhi.
  assert (Hgo : forall lower upper : Z * Z * Z,
             contours.check_bounds lower upper = Ok tt ->
             ch0 lower <= ch0 upper ->
             forall color_image : Cv.image,
               contours.find_contours color_image lower upper
               = (hsv_image <- cvtColor_BGR2HSV color_image ;;
                  Ok (findContours (inRange hsv_image lower upper)
                                   RETR_LIST CHAIN_APPROX_SIMPLE))%result).
  { intros lower upper Hc Hle color_image.
    unfold contours.find_contours, contours.find_contours_mask, contours.build_mask.
    rewrite Hc. apply Z.leb_le in Hle. rewrite Hle. simpl.
    destruct (cvtColor_BGR2HSV color_image); reflexivity. }
  destruct (filter (qualifies (hue_range self)) (List.concat hsv)) as [|p0 q0] eqn:Eq.
  - exists (0, 0, 0), (0, 0, 0).
    rewrite (get_hsv_range_eq self hsv Hh). cbn zeta. rewrite Eq.
    split; [reflexivity|]. split; [reflexivity|].
    apply Hgo; [reflexivity | unfold ch0; simpl; lia].
  - assert (Hq : filter (qualifies (hue_range self)) (List.concat hsv) <> [])
      by (rewrite Eq; discriminate).
    destruct (estimate_extremes self hsv Hh Hq) as (Hget & Hmin & Hmax).
    cbn zeta in *. clear Eq.
    set (q := filter (qualifies (hue_range self)) (List.concat hsv)) in *.
    assert (Hin : forall (f : pixel -> Z) (m : Z),
               In m (map f q) -> exists p, uint8_pixel p
                 /\ fst (hue_range self) <= ch0 p <= snd (hue_range self) /\ f p = m).
    { intros f m Hm. apply in_map_iff in Hm. destruct Hm as (p & Hp & Hf).
      apply filter_In in Hf. destruct Hf as [Hf Hqual].
      apply qualifies_true in Hqual. exists p.
      split; [exact (Forall2_In _ _ _ Hu8 Hf) | now split]. }
    eexists _, _. rewrite Hget. split; [reflexivity|].
    destruct (Hin ch0 _ (proj1 (Hmin ch0))) as (a0 & (U0 & _) & H0 & E0).
    destruct (Hin ch0 _ (proj1 (Hmax ch0))) as (b0 & (V0 & _) & G0 & F0).
    destruct (Hin ch1 _ (proj1 (Hmin ch1))) as (a1 & (_ & U1 & _) & _ & E1).
    destruct (Hin ch1 _ (proj1 (Hmax ch1))) as (b1 & (_ & V1 & _) & _ & F1).
    pose proof (min_le_max _ _ _ (Hmin ch0) (Hmax ch0)) as L0.
    pose proof (min_le_max _ _ _ (Hmin ch1) (Hmax ch1)) as L1.
    pose proof (min_le_max _ _ _ (Hmin ch2) (Hmax ch2)) as L2.
    unfold uint8, pixel in *.
    assert (Hc : contours.check_bounds
                   (hd 0 (sort (map ch0 q)), hd 0 (sort (map ch1 q)),
                    hd 0 (sort (map ch2 q)))
                   (last (sort (map ch0 q)) 0, last (sort (map ch1 q)) 0,
                    last (sort (map ch2 q)) 0) = Ok tt).
    { apply contours_facts.check_bounds_ok.
      rewrite !ch0_triple, !ch1_triple, !ch2_triple. lia. }
    split; [exact Hc|]. apply Hgo; [exact Hc|].
    rewrite !ch0_triple. exact L0.
Qed.

End WithOpenCV.

Lemma estimate_covers_selection_witness :
  exists lower upper : Z * Z * Z,
    get_hsv_range (Sim.selected (110, 150))
    = (Ok [lower; upper], Sim.selected (110, 150), [])
    /\ 110 <= ch0 lower /\ ch0 upper <= 150
    /\ at2 (inRange Sim.picture lower upper) 2 0 = Some 255.
Proof.
  destruct (estimate_covers_selection (Sim.selected (110, 150)) Sim.picture)
    as (lower & upper & H & H0 & H1 & Hm).
  - reflexivity.
  - exists (120, 100, 200). split.
    + apply (nth_error_In _ 48). reflexivity.
    + unfold ch0. simpl. lia.
  - exists lower, upper. split; [exact H|]. split; [exact H0|]. split; [exact H1|].
    apply (Hm 2%nat 0%nat (120, 100, 200)); [reflexivity|].
    unfold ch0. simpl. lia.
Defined.

Lemma estimate_accepted_witness :
  exists lower upper : Z * Z * Z,
    fst (fst (get_hsv_range (Sim.selected (110, 150)))) = Ok [lower; upper]
    /\ @contours.check_bounds lower upper = Ok tt.
Proof.
  destruct (@estimate_accepted Sim.opencv (Sim.selected (110, 150)) Sim.picture)
    as (lower & upper & H & Hc & _).
  - reflexivity.
  - apply Forall_forall. intros row Hrow. apply Forall_forall. intros p Hp.
    assert (Hin : In p [(100, 30, 40); (120, 100, 200); (125, 200, 100)]).
    { assert (Hc : In p (List.concat Sim.picture))
        by (apply in_concat; now exists row).
      clear Hp Hrow. revert p Hc. apply Forall_forall. vm_compute.
      repeat (constructor; [tauto|]). constructor. }
    destruct Hin as [<- | [<- | [<- | []]]];
      unfold uint8_pixel, uint8, ch0, ch1, ch2; simpl; lia.
  - simpl. lia.
  - exists lower, upper. split; assumption.
Defined.

End estimator_more.

(** ** color_finder.py: the crop, the events and the loop, further *)

Module session_more.
Import PyFacts Props Counts color_finder session_facts.

Lemma slice_nth_error {A : Type} (l : list A) (start stop : Z) (i : nat) :
  0 <= start -> 0 <= stop ->
  nth_error (slice l start stop) i
  = if start + Z.of_nat i <? stop then nth_error l (Z.to_nat start + i) else None.
Proof.
  intros Ha Hb. unfold slice, slice_bound.
  destruct (Z.ltb_spec start 0); [lia|].
  destruct (Z.ltb_spec stop 0); [lia|].
  set (n := Z.of_nat (List.length l)).
  rewrite nth_error_firstn, nth_error_skipn.
  destruct (Nat.ltb_spec i (Z.to_nat (Z.min stop n - Z.min start n)));
    destruct (Z.ltb_spec (start + Z.of_nat i) stop).
  - f_equal. lia.
  - lia.
  - symmetry. apply nth_error_None. unfold n in *. lia.
  - reflexivity.
Qed.

Lemma slice2_at2 {A : Type} (a : list (list A)) (r0 r1 c0 c1 : Z) (i j : nat) :
  0 <= r0 -> 0 <= r1 -> 0 <= c0 -> 0 <= c1 ->
  at2 (slice2 a r0 r1 c0 c1) i j
  = if (r0 + Z.of_nat i <? r1) && (c0 + Z.of_nat j <? c1)
    then at2 a (Z.to_nat r0 + i) (Z.to_nat c0 + j) else None.
Proof.
  intros Hr0 Hr1 Hc0 Hc1. unfold slice2, at2.
  rewrite nth_error_map, slice_nth_error by assumption.
  destruct (r0 + Z.of_nat i <? r1); simpl; [|reflexivity].
  destruct (nth_error a (Z.to_nat r0 + i)) as [row|]; simpl.
  - apply slice_nth_error; assumption.
  - now destruct (c0 + Z.of_nat j <? c1).
Qed.

(** What the crop holds.  For a release not above the press, with the press
    at non-negative coordinates and the release at 3 or more in both
    coordinates, the pixel at row [i], column [j] of the crop is the pixel of
    the image at row [mouse_y + 3 + i], column [mouse_x + 3 + j], as long as
    these stay below [y - 3] and [x - 3]; the crop has no other pixel.  For
    a release above the press the same holds with the two points swapped. *)
Theorem crop_pixels (img : Cv.image) (mouse_x mouse_y x y : Z) (i j : nat) :
  (mouse_y <= y -> 0 <= mouse_x -> 0 <= mouse_y -> 3 <= x -> 3 <= y ->
   at2 (crop img mouse_x mouse_y x y) i j
   = if (mouse_y + 3 + Z.of_nat i <? y - 3) && (mouse_x + 3 + Z.of_nat j <? x - 3)
     then at2 img (Z.to_nat (mouse_y + 3) + i) (Z.to_nat (mouse_x + 3) + j)
     else None)
  /\ (y < mouse_y -> 0 <= x -> 0 <= y -> 3 <= mouse_x -> 3 <= mouse_y ->
      at2 (crop img mouse_x mouse_y x y) i j
      = if (y + 3 + Z.of_nat i <? mouse_y - 3) && (x + 3 + Z.of_nat j <? mouse_x - 3)
        then at2 img (Z.to_nat (y + 3) + i) (Z.to_nat (x + 3) + j)
        else None).
Proof.
  unfold crop. split; intros H1 H2 H3 H4 H5.
  - destruct (Z.ltb_spec y mouse_y); [lia|]. apply slice2_at2; lia.
  - destruct (Z.ltb_spec y mouse_y); [|lia]. apply slice2_at2; lia.
Qed.

(** A selection less than six pixels tall, released at [y >= 3] and not
    above the press (a click without a drag included), crops the image to no
    row at all. *)
Theorem crop_small_drag_empty (img : Cv.image) (mouse_x mouse_y x y : Z) :
  0 <= mouse_y <= y -> y <= mouse_y + 6 -> 3 <= y ->
  crop img mouse_x mouse_y x y = [].
Proof.
  intros H1 H2 H3. unfold crop, slice2.
  destruct (Z.ltb_spec y mouse_y); [lia|].
  rewrite slice_reversed by lia. reflexivity.
Qed.

(** A release less than 3 pixels below the top edge makes the stop row
    [y - 3] negative, and Python counts it from the bottom: on an image of
    [h] rows, with the press at row [mouse_y <= y] and [mouse_y + 3 <= h],
    the crop keeps [h + y - mouse_y - 6] rows (none when this is
    negative), not the few rows between press and release. *)
Theorem crop_near_top_edge (img : Cv.image) (mouse_x mouse_y x y : Z) :
  0 <= mouse_y <= y -> y < 3 ->
  mouse_y + 3 <= Z.of_nat (List.length img) ->
  List.length (crop img mouse_x mouse_y x y)
  = Z.to_nat (Z.of_nat (List.length img) + y - mouse_y - 6).
Proof.
  intros H1 H2 H3. unfold crop, slice2.
  destruct (Z.ltb_spec y mouse_y); [lia|].
  rewrite length_map. unfold slice, slice_bound.
  destruct (Z.ltb_spec (mouse_y + 3) 0); [lia|].
  destruct (Z.ltb_spec (y - 3) 0); [|lia].
  rewrite length_firstn, length_skipn. lia.
Qed.

Lemma mbind_get {A B : Type} (field : ColorFinder -> A) (k : A -> Meth B)
      (self : ColorFinder) :
  mbind (get field) k self = k (field self) self.
Proof.
  unfold mbind, get. destruct (k (field self) self) as [[r s] o]. reflexivity.
Qed.

Lemma mbind_modify {B : Type} (f : ColorFinder -> ColorFinder) (k : unit -> Meth B)
      (self : ColorFinder) :
  mbind (modify f) k self = k tt (f self).
Proof.
  unfold mbind, modify. destruct (k tt (f self)) as [[r s] o]. reflexivity.
Qed.

Lemma mbind_tell {B : Type} (out : list output) (k : unit -> Meth B)
      (self : ColorFinder) :
  mbind (tell out) k self
  = match k tt self with (r, s, o) => (r, s, out ++ o) end.
Proof. reflexivity. Qed.

Lemma mbind_ret {A B : Type} (a : A) (k : A -> Meth B) (self : ColorFinder) :
  mbind (ret a) k self = k a self.
Proof.
  unfold mbind, ret. destruct (k a self) as [[r s] o]. reflexivity.
Qed.

Section WithOpenCV.
Context {cv : OpenCV}.
Local Open Scope meth_scope.

(** An event other than the release of the button returns, prints
    nothing, and leaves the source image, the HSV image, the hue interval
    and the range as they are. *)
Lemma crop_image_no_release (event x y : Z) (self : ColorFinder) :
  event <> EVENT_LBUTTONUP ->
  exists self',
    crop_image event x y self = (Ok tt, self', [])
    /\ image self' = image self
    /\ hsv_image self' = hsv_image self
    /\ hue_range self' = hue_range self
    /\ current_hsv_range self' = current_hsv_range self.
Proof.
  intros Hev. unfold crop_image.
  destruct (event =? EVENT_LBUTTONDOWN).
  { eexists. split; [reflexivity|]. repeat split. }
  destruct (event =? EVENT_MOUSEMOVE).
  { rewrite mbind_get. destruct (drawing self).
    - eexists. split; [reflexivity|]. repeat split.
    - eexists. split; [reflexivity|]. repeat split. }
  destruct (Z.eqb_spec event EVENT_LBUTTONUP); [contradiction|].
  eexists. split; [reflexivity|]. repeat split.
Qed.

(** The release of the button.  It ends the drag, replaces the source
    image by the crop of the marked image, prints nothing and leaves the
    display copy and the range alone.  When the conversion of the crop
    returns, the HSV image is the converted crop; when it raises (as on an
    empty crop), the call raises with the source image already cropped and
    the HSV image still the one from before. *)
Theorem release_effect (x y : Z) (self : ColorFinder) :
  let marked :=
    rectangle (image self) (mouse_x self, mouse_y self) (x, y) (0, 255, 255) 2 in
  let cropped := crop marked (mouse_x self) (mouse_y self) x y in
  exists r self',
    crop_image EVENT_LBUTTONUP x y self = (r, self', [])
    /\ image self' = cropped
    /\ drawing self' = false
    /\ cache self' = cache self
    /\ current_hsv_range self' = current_hsv_range self
    /\ match cvtColor_BGR2HSV cropped with
       | Ok hsv => r = Ok tt /\ hsv_image self' = Some hsv
       | Raise e => r = Raise e /\ hsv_image self' = hsv_image self
       end.
Proof.
  cbn zeta. unfold crop_image.
  change (EVENT_LBUTTONUP =? EVENT_LBUTTONDOWN) with false.
  change (EVENT_LBUTTONUP =? EVENT_MOUSEMOVE) with false.
  change (EVENT_LBUTTONUP =? EVENT_LBUTTONUP) with true. cbv iota.
  rewrite mbind_modify, !mbind_get, mbind_modify, mbind_get, mbind_modify, mbind_get.
  unfold mbind, lift, modify. simpl.
  destruct (cvtColor_BGR2HSV _) as [hsv|e]; eexists _, _;
    (split; [reflexivity|]); simpl; repeat split.
Qed.

Lemma dispatch_all_no_release (pending : list (Z * Z * Z)) :
  Forall (fun ev => fst (fst ev) <> EVENT_LBUTTONUP) pending ->
  forall self : ColorFinder,
  exists self',
    dispatch_all pending self = (Ok tt, self', [])
    /\ image self' = image self
    /\ hsv_image self' = hsv_image self
    /\ hue_range self' = hue_range self
    /\ current_hsv_range self' = current_hsv_range self.
Proof.
  induction 1 as [|ev rest Hev _ IH]; intros self.
  - exists self. repeat split.
  - destruct (crop_image_no_release _ (snd (fst ev)) (snd ev) self Hev)
      as (s1 & E1 & I1 & H1 & R1 & C1).
    destruct (IH s1) as (s2 & E2 & I2 & H2 & R2 & C2).
    exists s2. split; [|repeat split; congruence].
    simpl. unfold mbind, dispatch. rewrite E1, E2. reflexivity.
Qed.

(** Presses and moves of the mouse never touch the source.  Whatever
    events are delivered during a [waitKey], as long as none is a release of
    the button, the source image, the HSV image, the hue interval and the
    range stay as they are, and nothing is printed; only the display copy
    and the drag state can change. *)
Theorem preview_leaves_source (pending : list (Z * Z * Z)) (key : Z)
        (self : ColorFinder) :
  Forall (fun ev => fst (fst ev) <> EVENT_LBUTTONUP) pending ->
  exists self',
    waitKey pending key self = (Ok key, self', [])
    /\ image self' = image self
    /\ hsv_image self' = hsv_image self
    /\ hue_range self' = hue_range self
    /\ current_hsv_range self' = current_hsv_range self.
Proof.
  intros Hall.
  destruct (dispatch_all_no_release pending Hall self) as (s1 & E1 & Hs).
  exists s1. split; [|exact Hs].
  unfold waitKey, mbind. rewrite E1. reflexivity.
Qed.

Lemma dispatch_all_ok (pending : list (Z * Z * Z)) :
  forall self, exists s o, dispatch_all pending self = (Ok tt, s, o).
Proof.
  induction pending as [|ev rest IH]; intros self; simpl.
  - now exists self, [].
  - unfold mbind, dispatch.
    destruct (crop_image (fst (fst ev)) (snd (fst ev)) (snd ev) self) as [[r1 s1] o1].
    destruct (IH s1) as (s2 & o2 & E2). rewrite E2. now eexists _, _.
Qed.

(** Before any selection ([hsv_image] is [None]) and with a display copy
    that is not empty, so that [cv2.imshow] accepts it, a frame does not
    raise: it shows the display copy, resets it to the source image,
    delivers the pending mouse events and returns whether the key is other
    than [q]. *)
Theorem refresh_before_selection (pending : list (Z * Z * Z)) (key : Z)
        (self : ColorFinder) :
  hsv_image self = None ->
  displayable (cache self) ->
  exists self' out,
    dispatch_all pending (set_cache (image self) self) = (Ok tt, self', out)
    /\ refresh pending key self
       = (Ok (negb (key =? ord_q)), self',
          Imshow "Color Finder" (cache self) :: out).
Proof.
  intros Hh _.
  destruct (dispatch_all_ok pending (set_cache (image self) self)) as (s1 & o1 & E1).
  exists s1, o1. split; [exact E1|].
  unfold refresh. rewrite mbind_get, mbind_tell, mbind_get, mbind_modify, mbind_get.
  change (hsv_image (set_cache (image self) self)) with (hsv_image self).
  rewrite Hh, mbind_ret. unfold waitKey, mbind at 1 2. rewrite E1. simpl.
  destruct (key =? ord_q); unfold ret; simpl; rewrite !app_nil_r; reflexivity.
Qed.

Lemma returns_bind {A B : Type} (m : Meth A) (k : A -> Meth B)
      (Q : A -> Prop) (P : B -> Prop) :
  returns m Q -> (forall a, Q a -> returns (k a) P) -> returns (mbind m k) P.
Proof.
  intros Hm Hk self b s o. unfold mbind.
  destruct (m self) as [[[a|e] s1] o1] eqn:Em; [|discriminate].
  destruct (k a s1) as [[r2 s2] o2] eqn:Ek.
  intros E. inversion E; subst.
  exact (Hk a (Hm _ _ _ _ Em) _ _ _ _ Ek).
Qed.

Lemma returns_any {A : Type} (m : Meth A) : returns m (fun _ => True).
Proof. intros self a s o _. exact I. Qed.

Lemma returns_ret {A : Type} (a : A) : returns (ret a) (eq a).
Proof. intros self b s o E. now inversion E. Qed.

(** A frame that returns, returns [False] exactly on the key [q]. *)
Lemma refresh_running (pending : list (Z * Z * Z)) (key : Z) :
  returns (refresh pending key) (fun running => running = negb (key =? ord_q)).
Proof.
  unfold refresh.
  do 6 (apply (returns_bind _ _ (fun _ => True)); [apply returns_any | intros ? _]).
  apply (returns_bind _ _ (eq key)).
  - unfold waitKey.
    apply (returns_bind _ _ (fun _ => True)); [apply returns_any | intros ? _].
    apply returns_ret.
  - intros k <-. destruct (key =? ord_q); intros self b s o E; now inversion E.
Qed.

(** The key [q] ends the loop: input that follows the frame in which it is
    pressed is not processed. *)
Theorem run_stops_at_quit (before after : list (list (Z * Z * Z) * Z))
        (pending : list (Z * Z * Z)) (self : ColorFinder) :
  run (before ++ (pending, ord_q) :: after) self
  = run (before ++ [(pending, ord_q)]) self.
Proof.
  revert self. induction before as [|[p k] before IH]; intros self; simpl.
  - unfold mbind.
    destruct (refresh pending ord_q self) as [[[running|e] s] o] eqn:E;
      [|reflexivity].
    apply refresh_running in E. subst running. reflexivity.
  - unfold mbind.
    destruct (refresh p k self) as [[[running|e] s] o]; [|reflexivity].
    destruct running; [|reflexivity]. now rewrite IH.
Qed.

(** An exception ends the loop: when the loop raises on some frames, it
    raises the same exception, in the same state and with the same output,
    whatever frames would follow. *)
Theorem run_raise_stops (frames more : list (list (Z * Z * Z) * Z)) :
  forall (self s : ColorFinder) (e : exn) (o : list output),
    run frames self = (Raise e, s, o) ->
    run (frames ++ more) self = (Raise e, s, o).
Proof.
  induction frames as [|[p k] frames IH]; intros self s e o; simpl.
  - discriminate.
  - unfold mbind.
    destruct (refresh p k self) as [[[running|e1] s1] o1]; [|exact (fun H => H)].
    destruct running; [|discriminate].
    destruct (run frames s1) as [[r2 s2] o2] eqn:E2.
    intros H. inversion H; subst.
    now rewrite (IH _ _ _ _ E2).
Qed.

Lemma enters_app (o1 o2 : list output) :
  enters (o1 ++ o2) = (enters o1 + enters o2)%nat.
Proof. unfold enters. now rewrite filter_app, length_app. Qed.

Lemma no_data_prints_app (o1 o2 : list output) :
  no_data_prints (o1 ++ o2) = (no_data_prints o1 + no_data_prints o2)%nat.
Proof. unfold no_data_prints. now rewrite filter_app, length_app. Qed.

Lemma pays_ret {A : Type} (a : A) (self : ColorFinder) : pays (ret a) self.
Proof.
  intros r s o E. inversion E; subst.
  unfold enters, no_data_prints. simpl. lia.
Qed.

Lemma pays_lift {A : Type} (x : result A) (self : ColorFinder) : pays (lift x) self.
Proof.
  intros r s o E. inversion E; subst.
  unfold enters, no_data_prints. simpl. lia.
Qed.

Lemma pays_tell (out : list output) (self : ColorFinder) :
  enters out = 0%nat -> no_data_prints out = 0%nat -> pays (tell out) self.
Proof. intros H1 H2 r s o E. inversion E; subst. lia. Qed.

Lemma pays_modify (f : ColorFinder -> ColorFinder) (self : ColorFinder) :
  (budget (f self) <= budget self)%nat -> pays (modify f) self.
Proof.
  intros H r s o E. inversion E; subst.
  unfold enters, no_data_prints. simpl. lia.
Qed.

Lemma pays_bind {A B : Type} (m : Meth A) (k : A -> Meth B) (self : ColorFinder) :
  pays m self ->
  (forall a self1 out1, m self = (Ok a, self1, out1) -> pays (k a) self1) ->
  pays (mbind m k) self.
Proof.
  intros Hm Hk r s o. unfold mbind.
  destruct (m self) as [[[a|e] self1] out1] eqn:Em.
  - destruct (Hm _ _ _ Em) as [B1 N1].
    specialize (Hk a self1 out1 eq_refl).
    destruct (k a self1) as [[r2 self2] out2] eqn:Ek.
    destruct (Hk _ _ _ Ek) as [B2 N2].
    intros E. inversion E; subst.
    rewrite enters_app, no_data_prints_app. lia.
  - intros E. inversion E; subst. exact (Hm _ _ _ Em).
Qed.

Lemma pays_get_bind {A B : Type} (field : ColorFinder -> A) (k : A -> Meth B)
      (self : ColorFinder) :
  pays (k (field self)) self -> pays (mbind (get field) k) self.
Proof.
  intros Hk r s o. rewrite mbind_get. apply Hk.
Qed.

Ltac pays_step :=
  first
    [ apply pays_ret
    | apply pays_lift
    | apply pays_modify; apply Nat.le_refl
    | apply pays_tell; reflexivity
    | apply pays_get_bind
    | apply pays_bind; [| intros ? ? ? _] ].

Lemma crop_image_pays (event x y : Z) (self : ColorFinder) :
  pays (crop_image event x y) self.
Proof.
  unfold crop_image.
  destruct (event =? EVENT_LBUTTONDOWN); [repeat pays_step|].
  destruct (event =? EVENT_MOUSEMOVE).
  { pays_step. destruct (drawing self); repeat pays_step. }
  destruct (event =? EVENT_LBUTTONUP); repeat pays_step.
Qed.

Lemma dispatch_all_pays (pending : list (Z * Z * Z)) :
  forall self, pays (dispatch_all pending) self.
Proof.
  induction pending as [|ev rest IH]; intros self; simpl.
  - apply pays_ret.
  - apply pays_bind; [|intros; apply IH].
    intros r s o. unfold dispatch.
    destruct (crop_image (fst (fst ev)) (snd (fst ev)) (snd ev) self)
      as [[r1 s1] o1] eqn:E.
    intros H. inversion H; subst. exact (crop_image_pays _ _ _ _ _ _ _ E).
Qed.

Lemma draw_on_cache_pays (c : option contour) (self : ColorFinder) :
  pays (draw_on_cache c) self.
Proof.
  intros r s o. unfold draw_on_cache.
  destruct (contours.draw_contour (cache self) c contours.default_color) as [img r1].
  intros H. inversion H; subst. unfold enters, no_data_prints, budget. simpl. lia.
Qed.

(** The estimate of a frame: with an HSV image and no range yet, the
    entry into [get_hsv_range] returns, stores a range of two tuples and
    prints the no-data message at most once. *)
Lemma estimate_block (self : ColorFinder) (hsv : Cv.image) :
  hsv_image self = Some hsv ->
  exists v og,
    get_hsv_range self = (Ok v, self, og)
    /\ v <> []
    /\ (no_data_prints og <= 1)%nat /\ enters og = 0%nat
    /\ (tell [Enter "get_hsv_range"] ;;
        v <- get_hsv_range ;; modify (set_current_hsv_range v)) self
       = (Ok tt, set_current_hsv_range v self, Enter "get_hsv_range" :: og).
Proof.
  intros Hh.
  assert (Hg : exists v og, get_hsv_range self = (Ok v, self, og) /\ v <> []
               /\ (no_data_prints og <= 1)%nat /\ enters og = 0%nat).
  { rewrite (estimator_facts.get_hsv_range_eq self hsv Hh). cbn zeta.
    destruct (filter _ _).
    - eexists _, _. split; [reflexivity|]. split; [discriminate|].
      split; [vm_compute; lia | reflexivity].
    - eexists _, _. split; [reflexivity|]. split; [discriminate|].
      split; [vm_compute; lia | reflexivity]. }
  destruct Hg as (v & og & Hg & Hv & Hn & He).
  exists v, og. repeat (split; [assumption|]).
  rewrite mbind_tell. unfold mbind at 1. rewrite Hg. unfold modify. simpl.
  now rewrite app_nil_r.
Qed.

Lemma refresh_pays (pending : list (Z * Z * Z)) (key : Z) (self : ColorFinder) :
  pays (refresh pending key) self.
Proof.
  unfold refresh.
  apply pays_get_bind.
  apply pays_bind; [pays_step|]. intros _ s1 o1 _.
  apply pays_get_bind.
  apply pays_bind; [pays_step|]. intros _ s2 o2 _.
  apply pays_get_bind.
  apply pays_bind.
  - destruct (hsv_image s2) as [hsv|] eqn:Hh; [|apply pays_ret].
    apply pays_get_bind.
    apply pays_bind.
    + destruct (current_hsv_range s2) as [|lo rest] eqn:Er.
      * change (Z.of_nat (List.length (@nil (Z * Z * Z))) <? 1) with true.
        cbv iota.
        destruct (estimate_block s2 hsv Hh) as (v & og & _ & Hv & Hn & He & Eb).
        intros r s o. rewrite Eb. intros E. inversion E; subst.
        unfold budget. rewrite Er. simpl current_hsv_range.
        destruct v as [|v0 v]; [congruence|].
        change (Enter "get_hsv_range" :: og) with ([Enter "get_hsv_range"] ++ og).
        rewrite enters_app, no_data_prints_app, He.
        change (enters [Enter "get_hsv_range"]) with 1%nat.
        change (no_data_prints [Enter "get_hsv_range"]) with 0%nat. lia.
      * assert (E : (Z.of_nat (List.length (lo :: rest)) <? 1) = false).
        { apply Z.ltb_ge. simpl List.length. lia. }
        rewrite E. apply pays_ret.
    + intros _ s3 o3 _.
      apply pays_get_bind.
      apply pays_bind; [pays_step|]. intros _ s4 o4 _.
      apply pays_get_bind.
      apply pays_bind; [pays_step|]. intros lower s5 o5 _.
      apply pays_bind; [pays_step|]. intros upper s6 o6 _.
      apply pays_bind; [pays_step|]. intros list_contours s7 o7 _.
      apply draw_on_cache_pays.
  - intros _ s3 o3 _.
    apply pays_bind.
    + unfold waitKey. apply pays_bind; [apply dispatch_all_pays|].
      intros. apply pays_ret.
    + intros k s4 o4 _. destruct (k =? ord_q); apply pays_ret.
Qed.

Lemma run_pays (frames : list (list (Z * Z * Z) * Z)) :
  forall self, pays (run frames) self.
Proof.
  induction frames as [|[pending key] rest IH]; intros self; simpl.
  - apply pays_ret.
  - apply pays_bind; [apply refresh_pays|].
    intros running s1 o1 _. destruct running; [apply IH | apply pays_ret].
Qed.

(** One estimate per session.  From any state and on any frames, the loop
    enters [get_hsv_range] at most once and prints the no-data message at
    most once; from a state that holds a range it does neither. *)
Theorem run_estimates_once (frames : list (list (Z * Z * Z) * Z))
        (self : ColorFinder) :
  (enters (snd (run frames self)) <= 1)%nat
  /\ (no_data_prints (snd (run frames self)) <= 1)%nat
  /\ (enters (snd (run frames self)) + no_data_prints (snd (run frames self))
      <= 2 * budget self)%nat.
Proof.
  destruct (run frames self) as [[r s] o] eqn:E.
  destruct (run_pays frames self r s o E) as [B N]. simpl.
  assert (budget self <= 1)%nat by (unfold budget; destruct (current_hsv_range self); lia).
  lia.
Qed.



End WithOpenCV.

Lemma preview_leaves_source_witness :
  exists self',
    @waitKey Sim.opencv [(EVENT_LBUTTONDOWN, 2, 2); (EVENT_MOUSEMOVE, 9, 9)] (-1)
             Sim.session
    = (Ok (-1), self', [])
    /\ image self' = Sim.picture /\ drawing self' = true.
Proof.
  destruct (@preview_leaves_source Sim.opencv
              [(EVENT_LBUTTONDOWN, 2, 2); (EVENT_MOUSEMOVE, 9, 9)] (-1) Sim.session)
    as (s & E & I & _).
  - repeat constructor; discriminate.
  - exists s. split; [exact E|]. split; [exact I|].
    vm_compute in E. injection E as <-. reflexivity.
Defined.

Lemma refresh_before_selection_witness :
  exists self' out,
    @refresh Sim.opencv [] 113 Sim.session
    = (Ok false, self', Imshow "Color Finder" Sim.picture :: out).
Proof.
  destruct (@refresh_before_selection Sim.opencv [] 113 Sim.session eq_refl)
    as (s & o & _ & E).
  - vm_compute. eexists _, _, _. reflexivity.
  - exists s, o. exact E.
Defined.

(** On the stand-in a selection of 5 by 5 pixels gives a contour of area
    16, below 30: the frame raises when it draws no contour, and the loop
    ends there. *)
Lemma run_raise_stops_witness :
  exists s o,
    @run Sim.opencv
      ([(Sim.drag (0, 0) (11, 11), -1); ([], -1)] ++ [([], -1); ([], 113)])
      Sim.session
    = (Raise CvError, s, o).
Proof.
  eexists _, _.
  apply (@run_raise_stops Sim.opencv).
  vm_compute. reflexivity.
Defined.

Lemma crop_pixels_witness :
  at2 (crop Sim.picture 2 2 20 12) 0 6 = Some (120, 100, 200)
  /\ at2 (crop Sim.picture 2 2 20 12) 0 7 = Some (125, 200, 100)
  /\ at2 (crop Sim.picture 2 2 20 12) 4 0 = None.
Proof.
  split; [|split].
  - rewrite (proj1 (crop_pixels Sim.picture 2 2 20 12 0 6)) by lia. reflexivity.
  - rewrite (proj1 (crop_pixels Sim.picture 2 2 20 12 0 7)) by lia. reflexivity.
  - rewrite (proj1 (crop_pixels Sim.picture 2 2 20 12 4 0)) by lia. reflexivity.
Defined.

Lemma crop_diagonal_drag_witness :
  crop Sim.picture 20 12 2 2 = slice2 Sim.picture 5 9 5 17.
Proof.
  rewrite crop_diagonal_drag; [reflexivity | right; lia].
Defined.

Lemma crop_small_drag_empty_witness : crop Sim.picture 10 10 10 10 = [].
Proof.
  apply crop_small_drag_empty; lia.
Defined.

Lemma crop_mixed_drag_empty_witness :
  Forall (fun row : list pixel => row = []) (crop Sim.picture 15 2 3 14).
Proof.
  apply crop_mixed_drag_empty; lia.
Defined.

Lemma crop_near_top_edge_witness :
  List.length (crop Sim.picture 1 1 1 1) = 18%nat.
Proof.
  rewrite crop_near_top_edge; [reflexivity | lia | lia | simpl; lia].
Defined.


End session_more.
